(** * finalbayesreg: Bayesian regression for the latent source model

    A shallow embedding of [finalbayesreg.py] and proofs about its
    functions.

    Modelling conventions.
    - Floating-point prices, labels, kernel weights and balances are
      real numbers ([R]); rounding, overflow and underflow are outside
      the model, except in [Bigfloat], which gives the [bigfloat]
      operations of [predict_dpi] their exponent range.
    - Python integers are [Z]; [len] results and loop counters too.
    - One-dimensional arrays and lists are [list R]; a two-dimensional
      array is the list of its rows.
    - A Python exception is the name of its class; a computation that
      may raise returns a [result]. *)

From Stdlib Require Import String.
From Stdlib Require Import Reals List ZArith Lia Lra Bool.
From Stdlib Require Import Permutation Sorted.
Import ListNotations.

Local Open Scope R_scope.

(** ** Python values, exceptions and sequences *)

Module Py.

Definition exn := string.

Definition ZeroDivisionError : exn := "ZeroDivisionError"%string.
Definition IndexError : exn := "IndexError"%string.
Definition ValueError : exn := "ValueError"%string.

Inductive result (A : Type) : Type :=
| Ok (a : A)
| Raise (e : exn).

Arguments Ok {A} a.
Arguments Raise {A} e.

Definition bind {A B : Type} (c : result A) (k : A -> result B) : result B :=
  match c with
  | Ok a => k a
  | Raise e => Raise e
  end.

Fixpoint mapM {A B : Type} (f : A -> result B) (l : list A) : result (list B) :=
  match l with
  | [] => Ok []
  | a :: rest =>
      bind (f a) (fun b => bind (mapM f rest) (fun bs => Ok (b :: bs)))
  end.

(** [l[i]]: a negative index counts from the end, anything outside
    raises [IndexError]. *)
Definition index {A : Type} (l : list A) (i : Z) : result A :=
  let len := Z.of_nat (length l) in
  let j := if (i <? 0)%Z then (i + len)%Z else i in
  if ((0 <=? j) && (j <? len))%Z then
    match nth_error l (Z.to_nat j) with
    | Some a => Ok a
    | None => Raise IndexError
    end
  else Raise IndexError.

(** Slice bounds are clipped to [0 .. len] after a negative bound has
    been shifted by [len]. *)
Definition clip (len i : Z) : Z :=
  if (i <? 0)%Z then Z.max (i + len) 0 else Z.min i len.

(** [l[lo:hi]] *)
Definition slice {A : Type} (l : list A) (lo hi : Z) : list A :=
  let len := Z.of_nat (length l) in
  let a := clip len lo in
  let b := clip len hi in
  firstn (Z.to_nat (b - a)) (skipn (Z.to_nat a) l).

(** [range(start, stop)] *)
Definition range (start stop : Z) : list Z :=
  map (fun k => (start + Z.of_nat k)%Z) (seq 0 (Z.to_nat (stop - start))).

(** [range(start, stop, step)]; a zero step raises [ValueError]. *)
Definition range_step (start stop step : Z) : result (list Z) :=
  if (step =? 0)%Z then Raise ValueError
  else
    let count :=
      if (0 <? step)%Z then ((stop - start + step - 1) / step)%Z
      else ((start - stop - step - 1) / (- step))%Z in
    Ok (map (fun k => (start + Z.of_nat k * step)%Z) (seq 0 (Z.to_nat count))).

(** A Python number as [predict_dpi] meets it: the integer literal [0]
    the accumulators start from, or a [bigfloat] value. *)
Inductive number : Type :=
| PyInt (z : Z)
| BigFloat (r : R).

Definition to_R (a : number) : R :=
  match a with
  | PyInt z => IZR z
  | BigFloat r => r
  end.

(** [a + b] with [b] a [bigfloat] *)
Definition add_big (a : number) (b : R) : number := BigFloat (to_R a + b).

(** [a / b]: the division of two integers (Python 2) is the floor
    division and raises on a zero divisor; [bigfloat] division is the
    division of the reals. *)
Definition div (a b : number) : result number :=
  match a, b with
  | PyInt x, PyInt y =>
      if (y =? 0)%Z then Raise ZeroDivisionError else Ok (PyInt (x / y))
  | _, _ => Ok (BigFloat (to_R a / to_R b))
  end.

End Py.

Import Py.

Notation "x <- c ;; k" := (bind c (fun x => k))
  (at level 61, c at next level, right associativity).

(** ** numpy helpers *)

Definition sum (l : list R) : R := fold_right Rplus 0 l.

(** [x - y] on arrays of one shape *)
Definition vsub (x y : list R) : list R :=
  map (fun p => fst p - snd p) (combine x y).

(** [numpy.linalg.norm] of a vector *)
Definition norm (v : list R) : R := sqrt (sum (map (fun c => c * c) v)).

(** [a < b] as the boolean Python computes *)
Definition Rltb (a b : R) : bool := if Rlt_dec a b then true else false.

(** [np.ptp] of one row, as [np.ptp(centers, axis=1)] applies it to
    every row: maximum minus minimum over the whole row; the reduction
    of an empty row raises [ValueError]. *)
Definition ptp (row : list R) : result R :=
  match row with
  | [] => Raise ValueError
  | a :: rest => Ok (fold_left Rmax rest a - fold_left Rmin rest a)
  end.

(** [np.argsort]: the indices that sort the keys in ascending order.
    numpy promises no order among equal keys; the model sorts by
    insertion and keeps them in their original order, and no statement
    below depends on that. *)
Fixpoint insert (x : R * nat) (l : list (R * nat)) : list (R * nat) :=
  match l with
  | [] => [x]
  | y :: l' => if Rle_dec (fst x) (fst y) then x :: l else y :: insert x l'
  end.

Definition sort_keys (keys : list R) : list (R * nat) :=
  fold_right insert [] (combine keys (seq 0 (length keys))).

Definition argsort (keys : list R) : list nat := map snd (sort_keys keys).

(** ** The functions of [finalbayesreg.py] *)

(** [generate_timeseries(prices, n)]: [n] is a window length, a natural
    number. [np.empty((m, n + 1))] refuses a negative [m]; row [i] is
    filled with [prices[i:i + n]] and the label
    [prices[i + n] - prices[i + n - 1]]. *)
Definition generate_timeseries (prices : list R) (n : nat)
  : result (list (list R)) :=
  let m := (Z.of_nat (length prices) - Z.of_nat n)%Z in
  if (m <? 0)%Z then Raise ValueError
  else
    mapM (fun i : Z =>
            let window := slice prices i (i + Z.of_nat n) in
            a <- index prices (i + Z.of_nat n) ;;
            b <- index prices (i + Z.of_nat n - 1) ;;
            Ok (window ++ [a - b]))
         (range 0 m).

(** [choose_effective_centers(centers, n)]:
    [centers[np.argsort(np.ptp(centers, axis=1))[-n:]]]. *)
Definition choose_effective_centers (centers : list (list R)) (n : Z)
  : result (list (list R)) :=
  ranges <- mapM ptp centers ;;
  let order := argsort ranges in
  let chosen := slice order (- n) (Z.of_nat (length order)) in
  mapM (fun j => index centers (Z.of_nat j)) chosen.

(** The body of the loop of [predict_dpi], for one row of [s]:
    [y_i = s[i, len(x)]], [x_i = s[i, :len(x)]],
    [exp = bg.exp(-0.25 * norm(x - x_i) ** 2)]. The label lookup comes
    first, so [x_i] has the length of [x] by the time of [x - x_i]. *)
Definition kernel_exp (x row : list R) : R :=
  let x_i := slice row 0 (Z.of_nat (length x)) in
  exp (- 0.25 * norm (vsub x x_i) ^ 2).

Fixpoint predict_dpi_loop (x : list R) (s : list (list R)) (num den : number)
  : result (number * number) :=
  match s with
  | [] => Ok (num, den)
  | row :: rest =>
      y_i <- index row (Z.of_nat (length x)) ;;
      let e := kernel_exp x row in
      predict_dpi_loop x rest (add_big num (y_i * e)) (add_big den e)
  end.

(** [predict_dpi(x, s)] *)
Definition predict_dpi (x : list R) (s : list (list R)) : result number :=
  acc <- predict_dpi_loop x s (PyInt 0) (PyInt 0) ;;
  div (fst acc) (snd acc).

(** The three kernel predictions at timestep [i]:
    [predict_dpi(prices[i - 180:i], s1)] and its two siblings. *)
Definition predict_dp123 (prices : list R) (s1 s2 s3 : list (list R)) (i : Z)
  : result (R * R * R) :=
  dp1 <- predict_dpi (slice prices (i - 180) i) s1 ;;
  dp2 <- predict_dpi (slice prices (i - 360) i) s2 ;;
  dp3 <- predict_dpi (slice prices (i - 720) i) s3 ;;
  Ok (to_R dp1, to_R dp2, to_R dp3).

(** [linear_regression_vars(prices, s1, s2, s3)]. [X] and [Y] are
    allocated with [len(prices) - 721] rows, which [np.empty] refuses
    when negative; iteration [i] of the loop writes row [i - 720], so
    the rows are the loop's results in order. *)
Definition linear_regression_vars (prices : list R) (s1 s2 s3 : list (list R))
  : result (list (list R) * list R) :=
  let len := Z.of_nat (length prices) in
  if (len - 721 <? 0)%Z then Raise ValueError
  else
    rows <- mapM (fun i : Z =>
                    a <- index prices (i + 1) ;;
                    b <- index prices i ;;
                    let dp := a - b in
                    d <- predict_dp123 prices s1 s2 s3 i ;;
                    let '(dp1, dp2, dp3) := d in
                    Ok ([dp1; dp2; dp3], dp))
                 (range 720 (len - 1)) ;;
    Ok (map fst rows, map snd rows).

(** [predict_dps(prices, s1, s2, s3, w)]; [float(dp)] is the identity
    on the reals. *)
Definition predict_dps (prices : list R) (s1 s2 s3 : list (list R))
    (w : R * R * R * R) : result (list R) :=
  let '(w0, w1, w2, w3) := w in
  mapM (fun i : Z =>
          d <- predict_dp123 prices s1 s2 s3 i ;;
          let '(dp1, dp2, dp3) := d in
          Ok (w0 + w1 * dp1 + w2 * dp2 + w3 * dp3))
       (range 720 (Z.of_nat (length prices) - 1)).

(** ** The trading simulators *)

(** The state of [evaluate_performance] *)
Record ledger : Type := { bank_balance : R; position : Z }.

(** [dps[i - 720] > t and position <= 0] *)
Definition buy_guard (d t : R) (position : Z) : bool :=
  Rltb t d && (position <=? 0)%Z.

(** [dps[i - 720] < -t and position >= 0] *)
Definition sell_guard (d t : R) (position : Z) : bool :=
  Rltb d (- t) && (0 <=? position)%Z.

(** The first [if] of the loop body: long position, BUY. *)
Definition buy (prices dps : list R) (t : R) (i : Z) (st : ledger)
  : result ledger :=
  d <- index dps (i - 720) ;;
  if buy_guard d t (position st) then
    p <- index prices i ;;
    Ok {| bank_balance := bank_balance st - p; position := position st + 1 |}
  else Ok st.

(** The second [if] of the loop body: short position, SELL. *)
Definition sell (prices dps : list R) (t : R) (i : Z) (st : ledger)
  : result ledger :=
  d <- index dps (i - 720) ;;
  if sell_guard d t (position st) then
    p <- index prices i ;;
    Ok {| bank_balance := bank_balance st + p; position := position st - 1 |}
  else Ok st.

Definition evaluate_performance_body (prices dps : list R) (t : R)
    (st : ledger) (i : Z) : result ledger :=
  st1 <- buy prices dps t i st ;;
  sell prices dps t i st1.

(** A [for] loop over the indices [idx], threading the state. *)
Fixpoint for_loop {St : Type} (body : St -> Z -> result St) (st : St)
    (idx : list Z) : result St :=
  match idx with
  | [] => Ok st
  | i :: rest => st' <- body st i ;; for_loop body st' rest
  end.

(** The two statements after the loop: sell what was bought, pay back
    what was borrowed. *)
Definition close_out (prices : list R) (st : ledger) : result R :=
  let last := (Z.of_nat (length prices) - 1)%Z in
  b1 <- (if (position st =? 1)%Z
         then p <- index prices last ;; Ok (bank_balance st + p)
         else Ok (bank_balance st)) ;;
  if (position st =? -1)%Z
  then p <- index prices last ;; Ok (b1 - p)
  else Ok b1.

Definition flat : ledger := {| bank_balance := 0; position := 0 |}.

(** [evaluate_performance(prices, dps, t, step)] *)
Definition evaluate_performance (prices dps : list R) (t : R) (step : Z)
  : result R :=
  idx <- range_step 720 (Z.of_nat (length prices) - 1) step ;;
  st <- for_loop (evaluate_performance_body prices dps t) flat idx ;;
  close_out prices st.

(** The state of [evaluate_performance2] *)
Record ledger2 : Type := { bank_balance2 : R; bitcoin : Z }.

Definition buy_guard2 (d t : R) : bool := Rltb t d.
Definition sell_guard2 (d t : R) : bool := Rltb d (- t).

Definition buy2 (prices dps : list R) (t : R) (i : Z) (st : ledger2)
  : result ledger2 :=
  d <- index dps (i - 720) ;;
  if buy_guard2 d t then
    p <- index prices i ;;
    Ok {| bank_balance2 := bank_balance2 st - p; bitcoin := bitcoin st + 1 |}
  else Ok st.

Definition sell2 (prices dps : list R) (t : R) (i : Z) (st : ledger2)
  : result ledger2 :=
  d <- index dps (i - 720) ;;
  if sell_guard2 d t then
    p <- index prices i ;;
    Ok {| bank_balance2 := bank_balance2 st + p; bitcoin := bitcoin st - 1 |}
  else Ok st.

Definition evaluate_performance2_body (prices dps : list R) (t : R)
    (st : ledger2) (i : Z) : result ledger2 :=
  st1 <- buy2 prices dps t i st ;;
  sell2 prices dps t i st1.

(** [evaluate_performance2(prices, dps, t, step)] *)
Definition evaluate_performance2 (prices dps : list R) (t : R) (step : Z)
  : result (R * Z) :=
  idx <- range_step 720 (Z.of_nat (length prices) - 1) step ;;
  st <- for_loop (evaluate_performance2_body prices dps t)
          {| bank_balance2 := 0; bitcoin := 0 |} idx ;;
  Ok (bank_balance2 st, bitcoin st).

(** ** Notions the statements use *)

(** The two halves of a row, as [predict_dpi] reads them:
    [s[i, :n]] and [s[i, n]]. *)
Definition feature (n : nat) (row : list R) : list R := firstn n row.
Definition label (n : nat) (row : list R) : R := nth n row 0.

(** Row [i] of the result, written with the prices' indices. *)
Definition window_row (prices : list R) (n : nat) (i : nat) : list R :=
  map (fun k => nth k prices 0) (seq i n)
  ++ [nth (i + n) prices 0 - nth (i + n - 1) prices 0].

(** The estimate in the words of the specification. *)
Definition squared_euclidean_distance (x f : list R) : R :=
  sum (map (fun p => (fst p - snd p) ^ 2) (combine x f)).

Definition weight (x c : list R) : R :=
  exp (- 0.25 * squared_euclidean_distance x (feature (length x) c)).

Definition kernel_estimate (x : list R) (s : list (list R)) : R :=
  sum (map (fun c => label (length x) c * weight x c) s)
  / sum (map (weight x) s).

(** A library for queries of length [n]: every center has [n + 1]
    coordinates. *)
Definition library (n : nat) (s : list (list R)) : Prop :=
  Forall (fun c => length c = S n) s.

(** A library that [predict_dpi] accepts for windows of length [n]. *)
Definition usable_library (n : nat) (s : list (list R)) : Prop :=
  s <> [] /\ library n s.

(** The window of [n] prices before timestep [i]: price[i-n .. i-1]. *)
Definition trailing_window (prices : list R) (n i : nat) : list R :=
  map (fun k => nth k prices 0) (seq (i - n) n).

(** The kernel estimates at timestep [i], for valid libraries. *)
Definition estimates (prices : list R) (s1 s2 s3 : list (list R)) (i : nat)
  : R * R * R :=
  (kernel_estimate (trailing_window prices 180 i) s1,
   kernel_estimate (trailing_window prices 360 i) s2,
   kernel_estimate (trailing_window prices 720 i) s3).

(** The regression row and the realized label at timestep [i]. *)
Definition regression_row (prices : list R) (s1 s2 s3 : list (list R)) (i : nat)
  : list R * R :=
  (let '(dp1, dp2, dp3) := estimates prices s1 s2 s3 i in [dp1; dp2; dp3],
   nth (i + 1) prices 0 - nth i prices 0).

(** The ledgers a run of Policy A goes through: after the first and
    after the second [if] of every iteration, up to the end of the loop
    or to the first exception. *)
Fixpoint ledgers_from (prices dps : list R) (t : R) (st : ledger) (idx : list Z)
  : list ledger :=
  match idx with
  | [] => []
  | i :: rest =>
      match buy prices dps t i st with
      | Raise _ => []
      | Ok st1 =>
          st1 :: match sell prices dps t i st1 with
                 | Raise _ => []
                 | Ok st2 => st2 :: ledgers_from prices dps t st2 rest
                 end
      end
  end.

Definition ledgers (prices dps : list R) (t : R) (step : Z) : list ledger :=
  flat :: match range_step 720 (Z.of_nat (length prices) - 1) step with
          | Ok idx => ledgers_from prices dps t flat idx
          | Raise _ => []
          end.

Definition bounded (st : ledger) : Prop :=
  position st = (-1)%Z \/ position st = 0%Z \/ position st = 1%Z.

(** Peak-to-peak range of a row, and of its first [n] coordinates. *)
Definition peak_to_peak (row : list R) : R :=
  match row with
  | [] => 0
  | a :: rest => fold_left Rmax rest a - fold_left Rmin rest a
  end.

Definition feature_range (n : nat) (row : list R) : R :=
  peak_to_peak (feature n row).

(** [chosen] are [m] of the [centers] with the largest [key]: the
    centers left out have keys no larger than the chosen ones. *)
Definition largest_by (key : list R -> R) (m : nat)
    (centers chosen : list (list R)) : Prop :=
  length chosen = m /\
  exists rest,
    Permutation (rest ++ chosen) centers /\
    forall a b, In a rest -> In b chosen -> key a <= key b.

Definition key_le (p q : R * nat) : Prop := fst p <= fst q.

(** ** Example data *)

(** A period of 722 equal prices and, for each scale, a library of one
    flat center. *)
Definition flat_prices : list R := repeat 1 722.
Definition flat_s1 : list (list R) := [repeat 1 181].
Definition flat_s2 : list (list R) := [repeat 1 361].
Definition flat_s3 : list (list R) := [repeat 1 721].

(** Two centroids with two feature coordinates and a label: the first
    is flat with a large label, the second swings by 4. *)
Definition two_centers : list (list R) := [[1; 1; 100]; [1; 5; 2]].

(** ** Notions of the further properties *)

(** [prices[k - 1]] for [k >= 0]: index [-1] is the last price. *)
Definition price_before (prices : list R) (k : nat) : R :=
  match k with
  | O => nth (length prices - 1) prices 0
  | S k' => nth k' prices 0
  end.

(** Row [i] of [generate_timeseries(prices, n)] for any [n <= len(prices)]. *)
Definition timeseries_row (prices : list R) (n : nat) (i : nat) : list R :=
  firstn n (skipn i prices)
  ++ [nth (i + n) prices 0 - price_before prices (i + n)].

(** How many entries of an order of length [k] the slice [order[-n:]]
    leaves out. *)
Definition left_out (k : nat) (n : Z) : nat :=
  Z.to_nat (clip (Z.of_nat k) (- n)).

(** Centroids compared by the range of their whole row. *)
Definition range_le (a b : list R) : Prop :=
  peak_to_peak a <= peak_to_peak b.

(** Every center has an entry at position [len(x)], which is all that
    [predict_dpi] needs of its width. *)
Definition wide (x : list R) (s : list (list R)) : Prop :=
  Forall (fun c => (length x < length c)%nat) s.

(** The blend [w0 + w1 * dp1 + w2 * dp2 + w3 * dp3] of a row
    [[dp1, dp2, dp3]] of [X]. *)
Definition blend (w : R * R * R * R) (row : list R) : R :=
  let '(w0, w1, w2, w3) := w in
  w0 + w1 * nth 0 row 0 + w2 * nth 1 row 0 + w3 * nth 2 row 0.

(** The signal has one entry per timestep that the simulators can
    evaluate: the length [predict_dps] gives it. *)
Definition aligned (prices dps : list R) : Prop :=
  length dps = (length prices - 721)%nat.

(** The entries of a signal that ask to buy ([d > t]) and to sell
    ([d < -t]). *)
Definition buy_signals (dps : list R) (t : R) : list R :=
  filter (fun d => Rltb t d) dps.

Definition sell_signals (dps : list R) (t : R) : list R :=
  filter (fun d => Rltb d (- t)) dps.

(** ** [bigfloat] with its exponent range *)

Module Bigfloat.

(** The smallest exponent of MPFR on a 64-bit platform, [1 - 2 ^ 62],
    which the default context of [bigfloat] uses: the smallest positive
    value is [2 ^ (emin - 1)]. *)
Definition emin : Z := (-4611686018427387903)%Z.

(** Half the smallest positive value. *)
Definition tiny : R := Rpower 2 (IZR (emin - 2)).

(** What an operation returns for the exact result [r]: zero when [r]
    is at most [tiny] in magnitude (underflow, rounding to nearest),
    otherwise [r]; the rounding of the mantissa to 53 bits is left
    out. *)
Definition round (r : R) : R := if Rle_dec (Rabs r) tiny then 0 else r.

Inductive value : Type :=
| Finite (r : R)
| Infinite (negative : bool)
| NaN.

(** [a / b]: a zero divisor gives NaN for [0 / 0] and an infinity
    otherwise, without raising. *)
Definition div (a b : R) : value :=
  if Req_dec_T b 0 then
    if Req_dec_T a 0 then NaN
    else Infinite (if Rlt_dec a 0 then true else false)
  else Finite (round (a / b)).

(** [bg.exp(-0.25 * norm(x - x_i) ** 2)] *)
Definition kernel_exp (x row : list R) : R :=
  let x_i := slice row 0 (Z.of_nat (length x)) in
  round (exp (- 0.25 * norm (vsub x x_i) ^ 2)).

(** The loop of [predict_dpi]: [num += y_i * exp] and [den += exp]. *)
Fixpoint predict_dpi_loop (x : list R) (s : list (list R)) (num den : R)
  : result (R * R) :=
  match s with
  | [] => Ok (num, den)
  | row :: rest =>
      y_i <- index row (Z.of_nat (length x)) ;;
      let e := kernel_exp x row in
      predict_dpi_loop x rest (round (num + round (y_i * e))) (round (den + e))
  end.

(** [predict_dpi(x, s)]: with no center, [num / den] is the division
    of the integer 0 by the integer 0. *)
Definition predict_dpi (x : list R) (s : list (list R)) : result value :=
  match s with
  | [] => Raise ZeroDivisionError
  | _ :: _ =>
      acc <- predict_dpi_loop x s 0 0 ;;
      Ok (div (fst acc) (snd acc))
  end.

End Bigfloat.

(** ** Facts about the sequence helpers *)

Lemma index_nth {A : Type} (l : list A) (i : nat) (d : A) :
  (i < length l)%nat -> index l (Z.of_nat i) = Ok (nth i l d).
Proof.
  intros Hi. unfold index.
  assert (Hneg : (Z.of_nat i <? 0)%Z = false) by (apply Z.ltb_ge; lia).
  rewrite Hneg.
  assert (Hin : ((0 <=? Z.of_nat i)
                 && (Z.of_nat i <? Z.of_nat (length l)))%Z = true).
  { apply andb_true_iff; split; [apply Z.leb_le | apply Z.ltb_lt]; lia. }
  rewrite Hin, Nat2Z.id.
  destruct (nth_error l i) eqn:E.
  - f_equal. symmetry. now apply nth_error_nth.
  - apply nth_error_None in E. lia.
Qed.

Lemma slice_firstn_skipn {A : Type} (l : list A) (i n : nat) :
  (i + n <= length l)%nat ->
  slice l (Z.of_nat i) (Z.of_nat i + Z.of_nat n) = firstn n (skipn i l).
Proof.
  intros H. unfold slice, clip.
  assert (H1 : (Z.of_nat i <? 0)%Z = false) by (apply Z.ltb_ge; lia).
  assert (H2 : (Z.of_nat i + Z.of_nat n <? 0)%Z = false)
    by (apply Z.ltb_ge; lia).
  rewrite H1, H2.
  rewrite !Z.min_l by lia.
  replace (Z.of_nat i + Z.of_nat n - Z.of_nat i)%Z with (Z.of_nat n) by lia.
  now rewrite !Nat2Z.id.
Qed.

Lemma firstn_skipn_nth {A : Type} (d : A) (l : list A) (i n : nat) :
  (i + n <= length l)%nat ->
  firstn n (skipn i l) = map (fun k => nth k l d) (seq i n).
Proof.
  revert i l. induction n as [|n IH]; intros i l H; [reflexivity|].
  simpl.
  destruct (skipn i l) as [|a rest] eqn:E.
  - assert (Hl : length (skipn i l) = 0%nat) by now rewrite E.
    rewrite length_skipn in Hl. lia.
  - assert (Ha : nth i l d = a).
    { rewrite <- (firstn_skipn i l) at 1.
      rewrite app_nth2 by (rewrite length_firstn; lia).
      rewrite length_firstn, Nat.min_l by lia.
      now rewrite Nat.sub_diag, E. }
    rewrite Ha. f_equal.
    rewrite <- IH by lia.
    f_equal.
    change (S i) with (1 + i)%nat.
    rewrite <- skipn_skipn, E. reflexivity.
Qed.

Lemma slice_prefix {A : Type} (l : list A) (n : nat) :
  slice l 0 (Z.of_nat n) = firstn n l.
Proof.
  unfold slice, clip.
  assert (H : (Z.of_nat n <? 0)%Z = false) by (apply Z.ltb_ge; lia).
  rewrite H. simpl.
  rewrite (Z.min_l 0) by lia. rewrite Z.sub_0_r. simpl.
  destruct (Z.min_spec (Z.of_nat n) (Z.of_nat (length l)))
    as [[Hlt ->]|[Hge ->]].
  - now rewrite Nat2Z.id.
  - rewrite Nat2Z.id. rewrite !firstn_all2 by lia. reflexivity.
Qed.

Lemma slice_last {A : Type} (l : list A) (m : nat) :
  (0 < m <= length l)%nat ->
  slice l (- Z.of_nat m) (Z.of_nat (length l)) = skipn (length l - m) l.
Proof.
  intros Hm. unfold slice, clip.
  assert (H1 : (- Z.of_nat m <? 0)%Z = true) by (apply Z.ltb_lt; lia).
  assert (H2 : (Z.of_nat (length l) <? 0)%Z = false) by (apply Z.ltb_ge; lia).
  rewrite H1, H2, Z.min_id, Z.max_l by lia.
  replace (Z.to_nat (- Z.of_nat m + Z.of_nat (length l)))
    with (length l - m)%nat by lia.
  apply firstn_all2. rewrite length_skipn. lia.
Qed.

Lemma mapM_ok {A B : Type} (f : A -> result B) (g : A -> B) (l : list A) :
  (forall a, In a l -> f a = Ok (g a)) -> mapM f l = Ok (map g l).
Proof.
  induction l as [|a l IH]; intros H; [reflexivity|].
  simpl. rewrite (H a) by now left. simpl.
  rewrite IH by (intros; apply H; now right). reflexivity.
Qed.

Lemma in_range (start stop i : Z) :
  In i (range start stop) <-> (start <= i < stop)%Z.
Proof.
  unfold range. rewrite in_map_iff. split.
  - intros [k [<- Hk]]. apply in_seq in Hk. lia.
  - intros H. exists (Z.to_nat (i - start)). split; [lia|].
    apply in_seq. lia.
Qed.

Lemma length_range (start stop : Z) :
  length (range start stop) = Z.to_nat (stop - start).
Proof. unfold range. now rewrite length_map, length_seq. Qed.

Lemma nth_range (start stop : Z) (j : nat) (d : Z) :
  (j < Z.to_nat (stop - start))%nat ->
  nth j (range start stop) d = (start + Z.of_nat j)%Z.
Proof.
  intros H. unfold range.
  rewrite (nth_indep _ d (start + Z.of_nat 0)%Z)
    by now rewrite length_map, length_seq.
  rewrite (map_nth (fun k => (start + Z.of_nat k)%Z)).
  now rewrite seq_nth.
Qed.

Lemma nth_error_map_range {B : Type} (g : Z -> B) (start stop : Z) (j : nat) :
  (j < Z.to_nat (stop - start))%nat ->
  nth_error (map g (range start stop)) j = Some (g (start + Z.of_nat j)%Z).
Proof.
  intros Hj. rewrite nth_error_map.
  rewrite (nth_error_nth' _ 0%Z) by now rewrite length_range.
  now rewrite nth_range.
Qed.

Lemma last_cons_indep {A : Type} (a d d' : A) (l : list A) :
  last (a :: l) d = last (a :: l) d'.
Proof.
  revert a. induction l as [|b l IH]; intros a; [reflexivity|].
  change (last (a :: b :: l) d) with (last (b :: l) d).
  change (last (a :: b :: l) d') with (last (b :: l) d').
  apply IH.
Qed.

Lemma sorted_prefix_le_suffix {A : Type} (le : A -> A -> Prop) (l : list A) :
  StronglySorted le l ->
  forall n a b, In a (firstn n l) -> In b (skipn n l) -> le a b.
Proof.
  induction 1 as [|x l Hs IH Hx]; intros n a b Ha Hb.
  - now rewrite firstn_nil in Ha.
  - destruct n as [|n]; [now simpl in Ha|].
    simpl in Ha, Hb. destruct Ha as [<-|Ha].
    + rewrite Forall_forall in Hx. apply Hx.
      rewrite <- (firstn_skipn n l). apply in_or_app. now right.
    + now apply (IH n).
Qed.

(** ** Window Extractor *)

Lemma generate_timeseries_rows (prices : list R) (n : nat) :
  (0 < n < length prices)%nat ->
  generate_timeseries prices n =
  Ok (map (window_row prices n) (seq 0 (length prices - n))).
Proof.
  intros Hn. unfold generate_timeseries.
  assert (Hm : (Z.of_nat (length prices) - Z.of_nat n <? 0)%Z = false)
    by (apply Z.ltb_ge; lia).
  rewrite Hm.
  rewrite (mapM_ok _ (fun i => window_row prices n (Z.to_nat i))).
  - f_equal. unfold range. rewrite map_map.
    replace (Z.to_nat (Z.of_nat (length prices) - Z.of_nat n - 0))
      with (length prices - n)%nat by lia.
    apply map_ext. intros k. f_equal. lia.
  - intros i Hi. apply in_range in Hi.
    cbv beta.
    assert (Hk : (Z.to_nat i + n < length prices)%nat) by lia.
    assert (Ei : i = Z.of_nat (Z.to_nat i)) by lia.
    set (k := Z.to_nat i) in *. clearbody k. subst i.
    rewrite slice_firstn_skipn by lia.
    rewrite <- Nat2Z.inj_add.
    rewrite (index_nth prices (k + n) 0) by lia. simpl.
    replace (Z.of_nat (k + n) - 1)%Z with (Z.of_nat (k + n - 1)) by lia.
    rewrite (index_nth prices (k + n - 1) 0) by lia. simpl.
    unfold window_row.
    now rewrite (firstn_skipn_nth 0) by lia.
Qed.

(** C3. For a price sequence of length L and a window length n with
    0 < n < L, [generate_timeseries] returns exactly L - n rows, in
    order; row i has n + 1 entries, its feature part is
    price[i .. i+n-1] and its label is price[i+n] - price[i+n-1].
    When the prices are [1,2,3,4,5] and n = 2 the rows are
    ([1,2],1), ([2,3],1), ([3,4],1). *)
Theorem generate_timeseries_windows (prices : list R) (n : nat) :
  (0 < n < length prices)%nat ->
  exists ts,
    generate_timeseries prices n = Ok ts /\
    length ts = (length prices - n)%nat /\
    (forall i, (i < length prices - n)%nat ->
       exists row,
         nth_error ts i = Some row /\
         length row = S n /\
         feature n row = map (fun k => nth k prices 0) (seq i n) /\
         label n row = nth (i + n) prices 0 - nth (i + n - 1) prices 0) /\
    (prices = [1; 2; 3; 4; 5] -> n = 2%nat ->
       map (fun row => (feature n row, label n row)) ts
       = [([1; 2], 1); ([2; 3], 1); ([3; 4], 1)]).
Proof.
  intros Hn.
  exists (map (window_row prices n) (seq 0 (length prices - n))).
  split; [now apply generate_timeseries_rows|].
  split; [now rewrite length_map, length_seq|].
  split.
  - intros i Hi. exists (window_row prices n i).
    split.
    { rewrite nth_error_map, nth_error_nth' with (d := 0%nat)
        by now rewrite length_seq.
      now rewrite seq_nth. }
    unfold window_row, feature, label.
    split; [rewrite length_app, length_map, length_seq; simpl; lia|].
    split.
    + rewrite firstn_app, length_map, length_seq, Nat.sub_diag. simpl.
      rewrite app_nil_r. apply firstn_all2.
      now rewrite length_map, length_seq.
    + rewrite app_nth2 by (rewrite length_map, length_seq; lia).
      now rewrite length_map, length_seq, Nat.sub_diag.
  - intros -> ->. simpl. unfold feature, label, window_row. simpl.
    repeat f_equal; lra.
Qed.

Lemma generate_timeseries_windows_witness :
  (0 < 2 < length [1; 2; 3; 4; 5])%nat /\
  exists ts,
    generate_timeseries [1; 2; 3; 4; 5] 2 = Ok ts /\
    length ts = 3%nat /\
    map (fun row => (feature 2 row, label 2 row)) ts
    = [([1; 2], 1); ([2; 3], 1); ([3; 4], 1)].
Proof.
  assert (H : (0 < 2 < length [1; 2; 3; 4; 5])%nat) by (simpl; lia).
  split; [exact H|].
  destruct (generate_timeseries_windows [1; 2; 3; 4; 5] 2 H)
    as (ts & Hts & Hlen & _ & Hex).
  exists ts. split; [exact Hts|]. split; [exact Hlen|].
  exact (Hex eq_refl eq_refl).
Defined.

(** ** Effective-center selection *)

Lemma insert_perm (x : R * nat) (l : list (R * nat)) :
  Permutation (insert x l) (x :: l).
Proof.
  induction l as [|y l IH]; simpl; [apply Permutation_refl|].
  destruct (Rle_dec (fst x) (fst y)); [apply Permutation_refl|].
  eapply perm_trans; [apply perm_skip, IH | apply perm_swap].
Qed.

Lemma insert_sorted (x : R * nat) (l : list (R * nat)) :
  StronglySorted key_le l -> StronglySorted key_le (insert x l).
Proof.
  induction 1 as [|y l Hs IH Hy]; simpl; [repeat constructor|].
  destruct (Rle_dec (fst x) (fst y)) as [Hle|Hgt].
  - constructor; [now constructor|].
    constructor; [exact Hle|].
    eapply Forall_impl; [|exact Hy].
    intros q Hq. unfold key_le in *. lra.
  - constructor; [exact IH|].
    apply (Permutation_Forall (Permutation_sym (insert_perm x l))).
    constructor; [unfold key_le; lra | exact Hy].
Qed.

Lemma fold_insert_perm (l : list (R * nat)) :
  Permutation (fold_right insert [] l) l.
Proof.
  induction l as [|x l IH]; simpl; [constructor|].
  eapply perm_trans; [apply insert_perm | now apply perm_skip].
Qed.

Lemma fold_insert_sorted (l : list (R * nat)) :
  StronglySorted key_le (fold_right insert [] l).
Proof.
  induction l as [|x l IH]; simpl; [constructor|now apply insert_sorted].
Qed.

Lemma ptp_peak_to_peak (centers : list (list R)) :
  Forall (fun c => c <> []) centers ->
  mapM ptp centers = Ok (map peak_to_peak centers).
Proof.
  intros H. apply mapM_ok. intros c Hc.
  rewrite Forall_forall in H. specialize (H c Hc).
  destruct c; [congruence|reflexivity].
Qed.

Lemma in_combine_keys (key : list R -> R) (l : list (list R)) (s : nat)
    (p : R * nat) :
  In p (combine (map key l) (seq s (length l))) ->
  (s <= snd p < s + length l)%nat /\ fst p = key (nth (snd p - s) l []).
Proof.
  revert s. induction l as [|c l IH]; intros s H; [destruct H|].
  simpl in H. destruct H as [<-|H].
  - simpl. rewrite Nat.sub_diag. split; [lia|reflexivity].
  - destruct (IH (S s) H) as [Hr Hk]. split; [simpl; lia|].
    replace (snd p - s)%nat with (S (snd p - S s)) by lia.
    exact Hk.
Qed.

Lemma map_nth_combine_keys (key : list R -> R) (l : list (list R)) (s : nat) :
  map (fun p => nth (snd p - s) l []) (combine (map key l) (seq s (length l)))
  = l.
Proof.
  revert s. induction l as [|c l IH]; intros s; [reflexivity|].
  cbn [length seq map combine snd]. rewrite Nat.sub_diag. f_equal.
  etransitivity; [|apply (IH (S s))].
  apply map_ext_in. intros p Hp.
  apply in_combine_keys in Hp. destruct Hp as [Hr _].
  replace (snd p - s)%nat with (S (snd p - S s)) by lia.
  reflexivity.
Qed.

Lemma sort_keys_facts (centers : list (list R)) :
  let sorted := sort_keys (map peak_to_peak centers) in
  Permutation (map (fun p => nth (snd p) centers []) sorted) centers /\
  StronglySorted key_le sorted /\
  length sorted = length centers /\
  forall p, In p sorted ->
    (snd p < length centers)%nat /\
    fst p = peak_to_peak (nth (snd p) centers []).
Proof.
  unfold sort_keys. rewrite length_map.
  set (pairs := combine (map peak_to_peak centers) (seq 0 (length centers))).
  pose proof (fold_insert_perm pairs) as Hperm.
  cbv zeta. split; [|split; [|split]].
  - eapply perm_trans; [apply Permutation_map, Hperm|].
    unfold pairs.
    rewrite <- (map_nth_combine_keys peak_to_peak centers 0) at 3.
    apply Permutation_refl'. apply map_ext. intros p.
    now rewrite Nat.sub_0_r.
  - apply fold_insert_sorted.
  - rewrite (Permutation_length Hperm). unfold pairs.
    rewrite length_combine, length_map, length_seq. apply Nat.min_id.
  - intros p Hp. apply (Permutation_in _ Hperm) in Hp.
    apply in_combine_keys in Hp. rewrite Nat.sub_0_r in Hp.
    destruct Hp as [Hr Hk]. split; [lia|exact Hk].
Qed.

(** What the code selects by. For k centroids with n + 1 coordinates
    each and 0 < m <= k, [choose_effective_centers] returns m of the
    centroids and the ones left out have a peak-to-peak range no larger
    than the returned ones, the range of a centroid being taken over all
    of its n + 1 coordinates, the label included. *)
Theorem choose_effective_centers_full_range
    (centers : list (list R)) (n m : nat) :
  Forall (fun c => length c = S n) centers ->
  (0 < m <= length centers)%nat ->
  exists chosen,
    choose_effective_centers centers (Z.of_nat m) = Ok chosen /\
    largest_by peak_to_peak m centers chosen.
Proof.
  intros Hw Hm.
  destruct (sort_keys_facts centers) as (Hperm & Hsorted & Hlen & Hin).
  set (sorted := sort_keys (map peak_to_peak centers)) in *.
  set (pick := fun p : R * nat => nth (snd p) centers []) in *.
  exists (map pick (skipn (length centers - m) sorted)).
  split.
  - unfold choose_effective_centers.
    rewrite ptp_peak_to_peak.
    2:{ eapply Forall_impl; [|exact Hw]. intros c Hc E. now subst c. }
    cbn [bind]. unfold argsort. fold sorted.
    rewrite slice_last by (rewrite length_map; lia).
    rewrite length_map, Hlen, skipn_map.
    rewrite (mapM_ok _ (fun j => nth j centers [])).
    + now rewrite map_map.
    + intros j Hj. apply in_map_iff in Hj. destruct Hj as (p & <- & Hp).
      apply index_nth.
      apply Hin. rewrite <- (firstn_skipn (length centers - m) sorted).
      apply in_or_app. now right.
  - split.
    + rewrite length_map, length_skipn, Hlen. lia.
    + exists (map pick (firstn (length centers - m) sorted)). split.
      * now rewrite <- map_app, firstn_skipn.
      * intros a b Ha Hb.
        apply in_map_iff in Ha, Hb.
        destruct Ha as (p & <- & Hp), Hb as (q & <- & Hq).
        assert (Hp' : In p sorted).
        { rewrite <- (firstn_skipn (length centers - m) sorted).
          apply in_or_app. now left. }
        assert (Hq' : In q sorted).
        { rewrite <- (firstn_skipn (length centers - m) sorted).
          apply in_or_app. now right. }
        unfold pick.
        rewrite <- (proj2 (Hin p Hp')), <- (proj2 (Hin q Hq')).
        exact (sorted_prefix_le_suffix key_le sorted Hsorted _ p q Hp Hq).
Qed.

Lemma ptp_two_centers : mapM ptp two_centers = Ok [99; 4].
Proof.
  unfold two_centers. cbn [mapM ptp bind fold_left].
  rewrite (Rmax_right 1 1), (Rmax_right 1 100) by lra.
  rewrite (Rmin_left 1 1), (Rmin_left 1 100) by lra.
  rewrite (Rmax_right 1 5), (Rmax_left 5 2) by lra.
  rewrite (Rmin_left 1 5), (Rmin_left 1 2) by lra.
  repeat f_equal; lra.
Qed.

Lemma argsort_two_centers : argsort [99; 4] = [1%nat; 0%nat].
Proof.
  unfold argsort, sort_keys.
  cbn [length seq combine fold_right insert fst snd].
  destruct (Rle_dec 99 4) as [H|H]; [lra|reflexivity].
Qed.

Lemma choose_effective_centers_two_centers :
  choose_effective_centers two_centers 1 = Ok [[1; 1; 100]].
Proof.
  unfold choose_effective_centers.
  rewrite ptp_two_centers. cbn [bind].
  rewrite argsort_two_centers. reflexivity.
Qed.

(** With [n = 0] the slice [[-0:]] is the whole of the sorted order:
    all the centroids come back, in ascending order of range. *)
Lemma choose_effective_centers_zero :
  choose_effective_centers two_centers 0 = Ok [[1; 5; 2]; [1; 1; 100]].
Proof.
  unfold choose_effective_centers.
  rewrite ptp_two_centers. cbn [bind].
  rewrite argsort_two_centers. reflexivity.
Qed.

(** C2 at a failing input. The docstring asks for the centers "with
    high price variation", and the claim for the largest range over the
    feature coordinates; of [two_centers] the code keeps the flat
    centroid, whose prices do not vary (feature range 0), and leaves
    out the one whose feature range is 4, because the range it sorts by
    takes in the label column. *)
Lemma choose_effective_centers_not_feature_range :
  choose_effective_centers two_centers 1 = Ok [[1; 1; 100]] /\
  ~ largest_by (feature_range 2) 1 two_centers [[1; 1; 100]].
Proof.
  split; [apply choose_effective_centers_two_centers|].
  intros (_ & rest & Hperm & Hle).
  assert (Hin : In [1; 5; 2] rest).
  { assert (H : In [1; 5; 2] (rest ++ [[1; 1; 100]])).
    { apply (Permutation_in _ (Permutation_sym Hperm)).
      right. now left. }
    apply in_app_or in H. destruct H as [H|[H|[]]]; [exact H|].
    exfalso. inversion H. lra. }
  specialize (Hle _ [1; 1; 100] Hin (or_introl eq_refl)).
  unfold feature_range, feature, peak_to_peak in Hle.
  cbn [firstn fold_left] in Hle.
  rewrite (Rmax_right 1 5), (Rmin_left 1 5) in Hle by lra.
  rewrite (Rmax_right 1 1), (Rmin_left 1 1) in Hle by lra.
  lra.
Qed.

Lemma choose_effective_centers_full_range_witness :
  Forall (fun c => length c = 3%nat) two_centers /\
  (0 < 1 <= length two_centers)%nat /\
  exists chosen,
    choose_effective_centers two_centers 1 = Ok chosen /\
    largest_by peak_to_peak 1 two_centers chosen.
Proof.
  assert (Hw : Forall (fun c => length c = 3%nat) two_centers)
    by (repeat constructor).
  assert (Hm : (0 < 1 <= length two_centers)%nat) by (simpl; lia).
  split; [exact Hw|]. split; [exact Hm|].
  exact (choose_effective_centers_full_range two_centers 2 1 Hw Hm).
Defined.

(** ** Kernel Predictor *)

Lemma sum_squares_nonneg (v : list R) : 0 <= sum (map (fun c => c * c) v).
Proof.
  induction v as [|c v IH]; simpl; [lra|].
  pose proof (Rle_0_sqr c) as Hc. unfold Rsqr in Hc. lra.
Qed.

Lemma norm_sqr (v : list R) : norm v ^ 2 = sum (map (fun c => c * c) v).
Proof.
  unfold norm. simpl. rewrite Rmult_1_r.
  apply sqrt_sqrt, sum_squares_nonneg.
Qed.

Lemma kernel_exp_weight (x row : list R) : kernel_exp x row = weight x row.
Proof.
  unfold kernel_exp, weight, squared_euclidean_distance, feature.
  rewrite slice_prefix, norm_sqr. unfold vsub. rewrite map_map.
  do 3 f_equal. apply map_ext. intros p. simpl. ring.
Qed.

Lemma weight_pos (x c : list R) : 0 < weight x c.
Proof. apply exp_pos. Qed.

Lemma predict_dpi_loop_sums (x : list R) (s : list (list R))
    (num den : number) :
  library (length x) s ->
  predict_dpi_loop x s num den
  = Ok (match s with
        | [] => (num, den)
        | _ :: _ =>
            (BigFloat
               (to_R num
                + sum (map (fun c => label (length x) c * weight x c) s)),
             BigFloat (to_R den + sum (map (weight x) s)))
        end).
Proof.
  revert num den. induction s as [|c s IH]; intros num den HS; [reflexivity|].
  inversion HS as [|? ? Hc HS']; subst. cbv beta in Hc.
  cbn [predict_dpi_loop].
  rewrite (index_nth c (length x) 0) by lia. cbn [bind].
  rewrite IH by assumption.
  rewrite kernel_exp_weight. unfold label.
  destruct s as [|c' s]; unfold add_big; cbn [to_R map sum fold_right];
    do 2 f_equal; f_equal; ring.
Qed.

Lemma sum_weights_pos (x : list R) (s : list (list R)) :
  s <> [] -> 0 < sum (map (weight x) s).
Proof.
  intros HS. destruct s as [|c s]; [congruence|]. clear HS.
  revert c. induction s as [|c' s IH]; intros c; simpl.
  - pose proof (weight_pos x c). lra.
  - pose proof (weight_pos x c). specialize (IH c'). simpl in IH. lra.
Qed.

Lemma predict_dpi_estimate (x : list R) (s : list (list R)) :
  s <> [] -> library (length x) s ->
  predict_dpi x s = Ok (BigFloat (kernel_estimate x s)).
Proof.
  intros Hne HS. unfold predict_dpi.
  rewrite predict_dpi_loop_sums by assumption.
  destruct s as [|c s]; [congruence|].
  cbn [bind fst snd div to_R]. unfold kernel_estimate.
  do 2 f_equal. simpl. f_equal; ring.
Qed.

Lemma feature_app (x : list R) (y : R) : feature (length x) (x ++ [y]) = x.
Proof.
  unfold feature. rewrite firstn_app, Nat.sub_diag, firstn_all. simpl.
  apply app_nil_r.
Qed.

Lemma label_app (x : list R) (y : R) : label (length x) (x ++ [y]) = y.
Proof.
  unfold label. rewrite app_nth2 by lia. now rewrite Nat.sub_diag.
Qed.

Lemma squared_euclidean_distance_refl (x : list R) :
  squared_euclidean_distance x x = 0.
Proof.
  unfold squared_euclidean_distance.
  induction x as [|a x IH]; [reflexivity|].
  cbn [combine map sum fold_right fst snd].
  fold (sum (map (fun p => (fst p - snd p) ^ 2) (combine x x))).
  rewrite IH. ring.
Qed.

Lemma weight_same (x : list R) (y : R) : weight x (x ++ [y]) = 1.
Proof.
  unfold weight. rewrite feature_app, squared_euclidean_distance_refl.
  rewrite Rmult_0_r. apply exp_0.
Qed.



(** C8, as the code has it. With an empty library the loop of
    [predict_dpi] does not run and the final division is the integer
    division 0 / 0, which raises Python's built-in ZeroDivisionError:
    the caller gets an exception, whatever the query, and it is not an
    EmptyLibrary one. *)
Theorem predict_dpi_empty_library (x : list R) :
  predict_dpi x [] = Raise ZeroDivisionError.
Proof. reflexivity. Qed.

Lemma predict_dpi_empty_library_not_typed :
  predict_dpi [1; 2] [] <> Raise "EmptyLibrary"%string.
Proof. unfold predict_dpi. cbn. unfold ZeroDivisionError. discriminate. Qed.

Lemma ln_2_lt_1 : ln 2 < 1.
Proof.
  rewrite <- (ln_exp 1). apply ln_increasing; [lra|].
  pose proof (exp_ineq1 1). lra.
Qed.

Lemma tiny_pos : 0 < Bigfloat.tiny.
Proof. apply exp_pos. Qed.

Lemma tiny_lt_1 : Bigfloat.tiny < 1.
Proof.
  unfold Bigfloat.tiny, Rpower. rewrite <- exp_0.
  apply exp_increasing.
  change (Bigfloat.emin - 2)%Z with (-4611686018427387905)%Z.
  pose proof ln_lt_2. nra.
Qed.

Lemma round_large (r : R) : Bigfloat.tiny < Rabs r -> Bigfloat.round r = r.
Proof.
  intros H. unfold Bigfloat.round.
  destruct (Rle_dec (Rabs r) Bigfloat.tiny); [lra|reflexivity].
Qed.

Lemma round_small (r : R) : Rabs r <= Bigfloat.tiny -> Bigfloat.round r = 0.
Proof.
  intros H. unfold Bigfloat.round.
  destruct (Rle_dec (Rabs r) Bigfloat.tiny); [reflexivity|lra].
Qed.

Lemma round_0 : Bigfloat.round 0 = 0.
Proof.
  apply round_small. rewrite Rabs_R0. pose proof tiny_pos. lra.
Qed.

Lemma round_1 : Bigfloat.round 1 = 1.
Proof.
  apply round_large. rewrite Rabs_R1. apply tiny_lt_1.
Qed.

Lemma round_label (y : R) :
  y = 0 \/ Bigfloat.tiny < Rabs y -> Bigfloat.round y = y.
Proof. intros [-> | H]; [apply round_0 | now apply round_large]. Qed.

Lemma bigfloat_kernel_exp (x row : list R) :
  Bigfloat.kernel_exp x row = Bigfloat.round (weight x row).
Proof.
  rewrite <- kernel_exp_weight. reflexivity.
Qed.

(** C9, as the code has it. With a library of exactly one center whose
    feature equals the query, [predict_dpi] returns exactly that
    center's label (zero, or a value that is not below the range of
    [bigfloat]): the weight is exp(0) = 1. *)
Theorem predict_dpi_single_center_at_query (x : list R) (y : R) :
  y = 0 \/ Bigfloat.tiny < Rabs y ->
  Bigfloat.predict_dpi x [x ++ [y]] = Ok (Bigfloat.Finite y).
Proof.
  intros Hy. unfold Bigfloat.predict_dpi. cbn [Bigfloat.predict_dpi_loop].
  rewrite (index_nth (x ++ [y]) (length x) 0)
    by (rewrite length_app; simpl; lia).
  cbn [bind]. fold (label (length x) (x ++ [y])).
  rewrite bigfloat_kernel_exp, weight_same, label_app, round_1.
  rewrite Rmult_1_r, Rplus_0_l, (round_label y Hy), (round_label y Hy).
  rewrite Rplus_0_l, round_1. cbn [fst snd]. unfold Bigfloat.div.
  destruct (Req_dec_T 1 0) as [H|_]; [lra|].
  f_equal. f_equal. unfold Rdiv. rewrite Rinv_1, Rmult_1_r.
  exact (round_label y Hy).
Qed.

Lemma predict_dpi_single_center_at_query_witness :
  (7 = 0 \/ Bigfloat.tiny < Rabs 7) /\
  Bigfloat.predict_dpi [1; 2] [[1; 2; 7]] = Ok (Bigfloat.Finite 7).
Proof.
  assert (H : 7 = 0 \/ Bigfloat.tiny < Rabs 7).
  { right. rewrite Rabs_pos_eq by lra. pose proof tiny_lt_1. lra. }
  split; [exact H|].
  exact (predict_dpi_single_center_at_query [1; 2] 7 H).
Defined.

Lemma far_weight_underflows :
  Rabs (weight [0] [10000000000; 7]) <= Bigfloat.tiny.
Proof.
  rewrite Rabs_pos_eq by (left; apply weight_pos).
  unfold weight, squared_euclidean_distance, feature, Bigfloat.tiny, Rpower.
  cbn [length firstn combine map sum fold_right fst snd].
  change (Bigfloat.emin - 2)%Z with (-4611686018427387905)%Z.
  assert (H : - 0.25 * ((0 - 10000000000) ^ 2 + 0)
              <= -4611686018427387905 * ln 2).
  { pose proof ln_2_lt_1. pose proof ln_lt_2. nra. }
  destruct H as [H | ->]; [left; now apply exp_increasing | right; reflexivity].
Qed.

(** C9 fails as stated: the single center [10000000000, 7] is so far
    from the query [0] that its weight exp(-2.5e19) underflows to
    zero; [num] and [den] are both zero and the result is NaN, not the
    label 7. *)
Lemma predict_dpi_single_center_far :
  length [10000000000; 7] = S (length [0]) /\
  Bigfloat.predict_dpi [0] [[10000000000; 7]] = Ok Bigfloat.NaN /\
  Bigfloat.predict_dpi [0] [[10000000000; 7]]
  <> Ok (Bigfloat.Finite (label (length [0]) [10000000000; 7])).
Proof.
  assert (E : Bigfloat.predict_dpi [0] [[10000000000; 7]] = Ok Bigfloat.NaN).
  { unfold Bigfloat.predict_dpi. cbn [Bigfloat.predict_dpi_loop].
    rewrite (index_nth [10000000000; 7] (length [0]) 0) by (simpl; lia).
    cbn [bind length nth].
    rewrite bigfloat_kernel_exp, (round_small _ far_weight_underflows).
    rewrite Rmult_0_r, round_0, !Rplus_0_l, round_0.
    cbn [fst snd]. unfold Bigfloat.div.
    destruct (Req_dec_T 0 0) as [_|H]; [reflexivity | congruence]. }
  split; [reflexivity|]. split; [exact E|].
  rewrite E. discriminate.
Qed.

(** ** Blend Model Trainer and Ensemble Predictor *)

Lemma slice_trailing_window (prices : list R) (n i : nat) :
  (n <= i <= length prices)%nat ->
  slice prices (Z.of_nat i - Z.of_nat n) (Z.of_nat i)
  = trailing_window prices n i.
Proof.
  intros H. unfold trailing_window.
  rewrite <- (firstn_skipn_nth 0) by lia.
  rewrite <- slice_firstn_skipn by lia.
  f_equal; lia.
Qed.

Lemma length_trailing_window (prices : list R) (n i : nat) :
  length (trailing_window prices n i) = n.
Proof. unfold trailing_window. now rewrite length_map, length_seq. Qed.

Section ValidLibraries.

Variables (prices : list R) (s1 s2 s3 : list (list R)).
Hypothesis Hs1 : s1 <> [] /\ library 180 s1.
Hypothesis Hs2 : s2 <> [] /\ library 360 s2.
Hypothesis Hs3 : s3 <> [] /\ library 720 s3.

Lemma predict_dpi_trailing (n i : nat) (s : list (list R)) :
  s <> [] /\ library n s ->
  (n <= i <= length prices)%nat ->
  predict_dpi (slice prices (Z.of_nat i - Z.of_nat n) (Z.of_nat i)) s
  = Ok (BigFloat (kernel_estimate (trailing_window prices n i) s)).
Proof.
  intros [Hne Hlib] Hi.
  rewrite slice_trailing_window by assumption.
  apply predict_dpi_estimate; [assumption|].
  now rewrite length_trailing_window.
Qed.

Lemma predict_dp123_estimates (i : nat) :
  (720 <= i <= length prices)%nat ->
  predict_dp123 prices s1 s2 s3 (Z.of_nat i)
  = Ok (estimates prices s1 s2 s3 i).
Proof.
  intros Hi. unfold predict_dp123.
  change 180%Z with (Z.of_nat 180).
  change 360%Z with (Z.of_nat 360).
  change 720%Z with (Z.of_nat 720).
  rewrite !predict_dpi_trailing by (assumption || lia).
  reflexivity.
Qed.

End ValidLibraries.

(** The kernel prediction of a trailing window against a usable
    library is the kernel estimate. *)
Ltac kernel_prediction :=
  apply predict_dpi_estimate;
  [assumption | now rewrite length_trailing_window].

Lemma linear_regression_vars_ok (prices : list R) (s1 s2 s3 : list (list R)) :
  (721 <= length prices)%nat ->
  usable_library 180 s1 -> usable_library 360 s2 -> usable_library 720 s3 ->
  linear_regression_vars prices s1 s2 s3
  = let rows := map (fun i => regression_row prices s1 s2 s3 (Z.to_nat i))
                    (range 720 (Z.of_nat (length prices) - 1)) in
    Ok (map fst rows, map snd rows).
Proof.
  intros HL H1 H2 H3. unfold linear_regression_vars.
  assert (Hm : (Z.of_nat (length prices) - 721 <? 0)%Z = false)
    by (apply Z.ltb_ge; lia).
  rewrite Hm.
  rewrite (mapM_ok _ (fun i => regression_row prices s1 s2 s3 (Z.to_nat i)));
    [reflexivity|].
  intros i Hi. apply in_range in Hi. cbv beta.
  assert (Hk : (720 <= Z.to_nat i /\ Z.to_nat i + 1 < length prices)%nat)
    by lia.
  assert (Ei : i = Z.of_nat (Z.to_nat i)) by lia.
  set (k := Z.to_nat i) in *. clearbody k. subst i.
  replace (Z.of_nat k + 1)%Z with (Z.of_nat (k + 1)) by lia.
  rewrite (index_nth prices (k + 1) 0) by lia. cbn [bind].
  rewrite (index_nth prices k 0) by lia. cbn [bind].
  rewrite (predict_dp123_estimates prices s1 s2 s3 H1 H2 H3) by lia.
  cbn [bind]. unfold regression_row, estimates. reflexivity.
Qed.

(** C4. For a training period of length L >= 722 and libraries for the
    scales 180, 360 and 720, [linear_regression_vars] returns exactly
    L - 721 rows, one per timestep i with 720 <= i <= L - 2, in order:
    row i - 720 of X holds the kernel predictions of the windows of the
    180, 360 and 720 prices that end at i (price[i-n .. i-1]), and
    entry i - 720 of Y is price[i+1] - price[i]. *)
Theorem linear_regression_vars_rows
    (prices : list R) (s1 s2 s3 : list (list R)) :
  (722 <= length prices)%nat ->
  usable_library 180 s1 -> usable_library 360 s2 -> usable_library 720 s3 ->
  exists X Y,
    linear_regression_vars prices s1 s2 s3 = Ok (X, Y) /\
    length X = (length prices - 721)%nat /\
    length Y = (length prices - 721)%nat /\
    forall i, (720 <= i <= length prices - 2)%nat ->
      exists dp1 dp2 dp3,
        predict_dpi (trailing_window prices 180 i) s1 = Ok dp1 /\
        predict_dpi (trailing_window prices 360 i) s2 = Ok dp2 /\
        predict_dpi (trailing_window prices 720 i) s3 = Ok dp3 /\
        nth_error X (i - 720) = Some [to_R dp1; to_R dp2; to_R dp3] /\
        nth_error Y (i - 720) = Some (nth (i + 1) prices 0 - nth i prices 0).
Proof.
  intros HL H1 H2 H3.
  rewrite linear_regression_vars_ok by (assumption || lia).
  cbv zeta. do 2 eexists. split; [reflexivity|].
  rewrite !length_map, length_range.
  split; [lia|]. split; [lia|].
  intros i Hi.
  destruct H1 as [N1 L1], H2 as [N2 L2], H3 as [N3 L3].
  do 3 eexists.
  do 3 (split; [kernel_prediction|]).
  rewrite !map_map, !nth_error_map_range by lia.
  replace (Z.to_nat (720 + Z.of_nat (i - 720))) with i by lia.
  split; reflexivity.
Qed.

(** C5. For a test period of length L >= 721, libraries for the three
    scales and blend coefficients w, [predict_dps] returns a signal of
    length L - 720 - 1; entry j of the signal is the blend of the three
    kernel predictions at timestep 720 + j, so index 0 is timestep
    720. *)
Theorem predict_dps_signal (prices : list R) (s1 s2 s3 : list (list R))
    (w0 w1 w2 w3 : R) :
  (721 <= length prices)%nat ->
  usable_library 180 s1 -> usable_library 360 s2 -> usable_library 720 s3 ->
  exists dps,
    predict_dps prices s1 s2 s3 (w0, w1, w2, w3) = Ok dps /\
    length dps = (length prices - 720 - 1)%nat /\
    forall j, (j < length dps)%nat ->
      exists dp1 dp2 dp3,
        predict_dpi (trailing_window prices 180 (720 + j)) s1 = Ok dp1 /\
        predict_dpi (trailing_window prices 360 (720 + j)) s2 = Ok dp2 /\
        predict_dpi (trailing_window prices 720 (720 + j)) s3 = Ok dp3 /\
        nth_error dps j
        = Some (w0 + w1 * to_R dp1 + w2 * to_R dp2 + w3 * to_R dp3).
Proof.
  intros HL H1 H2 H3. unfold predict_dps.
  set (blend := fun i : Z =>
         let '(dp1, dp2, dp3) := estimates prices s1 s2 s3 (Z.to_nat i) in
         w0 + w1 * dp1 + w2 * dp2 + w3 * dp3).
  rewrite (mapM_ok _ blend).
  - eexists. split; [reflexivity|].
    rewrite length_map, length_range.
    split; [lia|].
    intros j Hj.
    destruct H1 as [N1 L1], H2 as [N2 L2], H3 as [N3 L3].
    do 3 eexists.
    do 3 (split; [kernel_prediction|]).
    rewrite nth_error_map_range by lia.
    unfold blend.
    replace (Z.to_nat (720 + Z.of_nat j)) with (720 + j)%nat by lia.
    reflexivity.
  - intros i Hi. apply in_range in Hi. cbv beta.
    assert (Hk : (720 <= Z.to_nat i <= length prices)%nat) by lia.
    assert (Ei : i = Z.of_nat (Z.to_nat i)) by lia.
    unfold blend.
    set (k := Z.to_nat i) in *. clearbody k. subst i.
    rewrite (predict_dp123_estimates prices s1 s2 s3 H1 H2 H3) by lia.
    cbn [bind]. unfold estimates. reflexivity.
Qed.

Lemma flat_libraries :
  usable_library 180 flat_s1 /\ usable_library 360 flat_s2 /\
  usable_library 720 flat_s3.
Proof.
  repeat split; try discriminate;
    (constructor; [apply repeat_length | constructor]).
Defined.

Lemma flat_prices_length : (722 <= length flat_prices)%nat.
Proof. apply Nat.leb_le. reflexivity. Defined.

Lemma linear_regression_vars_rows_witness :
  (722 <= length flat_prices)%nat /\
  usable_library 180 flat_s1 /\ usable_library 360 flat_s2 /\
  usable_library 720 flat_s3 /\
  exists X Y,
    linear_regression_vars flat_prices flat_s1 flat_s2 flat_s3 = Ok (X, Y) /\
    length X = 1%nat /\ length Y = 1%nat.
Proof.
  destruct flat_libraries as (H1 & H2 & H3).
  split; [exact flat_prices_length|].
  split; [exact H1|]. split; [exact H2|]. split; [exact H3|].
  destruct (linear_regression_vars_rows flat_prices flat_s1 flat_s2 flat_s3
              flat_prices_length H1 H2 H3) as (X & Y & HXY & HX & HY & _).
  exists X, Y. split; [exact HXY|].
  split; [exact HX | exact HY].
Defined.

Lemma predict_dps_signal_witness :
  (721 <= length flat_prices)%nat /\
  usable_library 180 flat_s1 /\ usable_library 360 flat_s2 /\
  usable_library 720 flat_s3 /\
  exists dps,
    predict_dps flat_prices flat_s1 flat_s2 flat_s3 (0, 1, 1, 1) = Ok dps /\
    length dps = 1%nat.
Proof.
  destruct flat_libraries as (H1 & H2 & H3).
  assert (HL : (721 <= length flat_prices)%nat)
    by (apply Nat.leb_le; reflexivity).
  split; [exact HL|].
  split; [exact H1|]. split; [exact H2|]. split; [exact H3|].
  destruct (predict_dps_signal flat_prices flat_s1 flat_s2 flat_s3 0 1 1 1
              HL H1 H2 H3) as (dps & Hdps & Hlen & _).
  exists dps. split; [exact Hdps | exact Hlen].
Defined.

(** ** Trading Simulator *)

Lemma for_loop_last (prices dps : list R) (t : R) (idx : list Z)
    (st st' : ledger) :
  for_loop (evaluate_performance_body prices dps t) st idx = Ok st' ->
  last (st :: ledgers_from prices dps t st idx) st = st'.
Proof.
  revert st. induction idx as [|i rest IH]; intros st H.
  - simpl in H. now inversion H.
  - cbn [for_loop] in H. unfold evaluate_performance_body in H.
    cbn [ledgers_from].
    destruct (buy prices dps t i st) as [st1|e]; [|discriminate].
    cbn [bind] in H.
    destruct (sell prices dps t i st1) as [st2|e]; [|discriminate].
    cbn [bind] in H. specialize (IH st2 H).
    change (last (st :: st1 :: st2 :: ledgers_from prices dps t st2 rest) st)
      with (last (st2 :: ledgers_from prices dps t st2 rest) st).
    rewrite <- IH. apply last_cons_indep.
Qed.

Lemma buy_bounded (prices dps : list R) (t : R) (i : Z) (st st' : ledger) :
  bounded st -> buy prices dps t i st = Ok st' -> bounded st'.
Proof.
  unfold buy, buy_guard, bounded. intros Hb H.
  destruct (index dps (i - 720)) as [d|e]; [|discriminate]. cbn [bind] in H.
  destruct (Rltb t d); cbn [andb] in H; [|inversion H; now subst].
  destruct (position st <=? 0)%Z eqn:E; [|inversion H; now subst].
  apply Z.leb_le in E.
  destruct (index prices i) as [p|e]; [|discriminate].
  inversion H; subst. cbn [position]. lia.
Qed.

Lemma sell_bounded (prices dps : list R) (t : R) (i : Z) (st st' : ledger) :
  bounded st -> sell prices dps t i st = Ok st' -> bounded st'.
Proof.
  unfold sell, sell_guard, bounded. intros Hb H.
  destruct (index dps (i - 720)) as [d|e]; [|discriminate]. cbn [bind] in H.
  destruct (Rltb d (- t)); cbn [andb] in H; [|inversion H; now subst].
  destruct (0 <=? position st)%Z eqn:E; [|inversion H; now subst].
  apply Z.leb_le in E.
  destruct (index prices i) as [p|e]; [|discriminate].
  inversion H; subst. cbn [position]. lia.
Qed.

Lemma ledgers_from_bounded (prices dps : list R) (t : R) (idx : list Z)
    (st : ledger) :
  bounded st -> Forall bounded (ledgers_from prices dps t st idx).
Proof.
  revert st. induction idx as [|i rest IH]; intros st Hb; [constructor|].
  cbn [ledgers_from].
  destruct (buy prices dps t i st) as [st1|e] eqn:E1; [|constructor].
  pose proof (buy_bounded _ _ _ _ _ _ Hb E1) as Hb1.
  constructor; [assumption|].
  destruct (sell prices dps t i st1) as [st2|e] eqn:E2; [|constructor].
  pose proof (sell_bounded _ _ _ _ _ _ Hb1 E2) as Hb2.
  constructor; [assumption|]. now apply IH.
Qed.

(** C6. Whatever the signal, the prices, the threshold and the stride,
    every ledger of a run of [evaluate_performance], which starts flat,
    has its position in {-1, 0, +1}; the buy branch runs only from a
    position <= 0 and the sell branch only from a position >= 0. *)
Theorem evaluate_performance_position_bounded
    (prices dps : list R) (t : R) (step : Z) :
  Forall (fun st => position st = (-1)%Z \/ position st = 0%Z
                    \/ position st = 1%Z)
         (ledgers prices dps t step) /\
  (forall d pos, buy_guard d t pos = true -> (pos <= 0)%Z) /\
  (forall d pos, sell_guard d t pos = true -> (0 <= pos)%Z).
Proof.
  split; [|split].
  - unfold ledgers.
    assert (Hflat : bounded flat) by (right; left; reflexivity).
    constructor; [exact Hflat|].
    destruct (range_step 720 (Z.of_nat (length prices) - 1) step);
      [|constructor].
    now apply ledgers_from_bounded.
  - unfold buy_guard. intros d pos H.
    apply andb_true_iff in H. now apply Z.leb_le.
  - unfold sell_guard. intros d pos H.
    apply andb_true_iff in H. now apply Z.leb_le.
Qed.

Lemma Rltb_true (a b : R) : Rltb a b = true <-> a < b.
Proof.
  unfold Rltb. destruct (Rlt_dec a b); split; intros; (easy || lra).
Qed.

Lemma guards_exclusive (d t : R) :
  0 <= t -> Rltb t d = true -> Rltb d (- t) = false.
Proof.
  intros Ht H. apply Rltb_true in H.
  destruct (Rltb d (- t)) eqn:E; [|reflexivity].
  apply Rltb_true in E. lra.
Qed.

(** C10. With a threshold t >= 0, at no timestep do both branches of
    either simulator run: when the buy branch of [evaluate_performance]
    runs (from position p) the guard of its sell branch, evaluated on
    the new position p + 1, is false, and likewise for
    [evaluate_performance2]; so one iteration of [evaluate_performance2]
    changes the inventory by -1, 0 or +1. *)
Theorem one_branch_per_timestep (t : R) :
  0 <= t ->
  (forall d pos,
     buy_guard d t pos = true -> sell_guard d t (pos + 1) = false) /\
  (forall d, buy_guard2 d t = true -> sell_guard2 d t = false) /\
  (forall prices dps st i st',
     evaluate_performance2_body prices dps t st i = Ok st' ->
     (bitcoin st' - bitcoin st = -1 \/ bitcoin st' - bitcoin st = 0
      \/ bitcoin st' - bitcoin st = 1)%Z).
Proof.
  intros Ht. split; [|split].
  - unfold buy_guard, sell_guard. intros d pos H.
    apply andb_true_iff in H. destruct H as [H _].
    now rewrite (guards_exclusive d t Ht H).
  - unfold buy_guard2, sell_guard2. intros d H.
    now apply guards_exclusive.
  - intros prices dps st i st' H.
    unfold evaluate_performance2_body, buy2, sell2 in H.
    destruct (index dps (i - 720)) as [d|e]; [|discriminate].
    cbn [bind] in H. unfold buy_guard2, sell_guard2 in H.
    destruct (Rltb t d) eqn:Eb.
    + rewrite (guards_exclusive d t Ht Eb) in H.
      destruct (index prices i) as [p|e]; [|discriminate].
      cbn [bind] in H. inversion H; subst. cbn [bitcoin]. lia.
    + cbn [bind] in H.
      destruct (Rltb d (- t)).
      * destruct (index prices i) as [p|e]; [|discriminate].
        cbn [bind] in H. inversion H; subst. cbn [bitcoin]. lia.
      * inversion H; subst. lia.
Qed.

Lemma one_branch_per_timestep_witness :
  0 <= 0 /\
  (forall d pos,
     buy_guard d 0 pos = true -> sell_guard d 0 (pos + 1) = false) /\
  (forall d, buy_guard2 d 0 = true -> sell_guard2 d 0 = false) /\
  (forall prices dps st i st',
     evaluate_performance2_body prices dps 0 st i = Ok st' ->
     (bitcoin st' - bitcoin st = -1 \/ bitcoin st' - bitcoin st = 0
      \/ bitcoin st' - bitcoin st = 1)%Z).
Proof.
  split; [apply Rle_refl|].
  exact (one_branch_per_timestep 0 (Rle_refl 0)).
Defined.

(** * Further properties of the code *)

(** ** [generate_timeseries]: shapes and edges *)

Lemma index_before (prices : list R) (k : nat) :
  (k < length prices)%nat ->
  index prices (Z.of_nat k - 1) = Ok (price_before prices k).
Proof.
  intros Hk. destruct k as [|k].
  - unfold index, price_before. change (Z.of_nat 0 - 1)%Z with (-1)%Z.
    change (-1 <? 0)%Z with true. cbv iota.
    assert (Hin : ((0 <=? -1 + Z.of_nat (length prices))
                   && (-1 + Z.of_nat (length prices)
                       <? Z.of_nat (length prices)))%Z = true).
    { apply andb_true_iff; split; [apply Z.leb_le | apply Z.ltb_lt]; lia. }
    rewrite Hin.
    replace (Z.to_nat (-1 + Z.of_nat (length prices)))
      with (length prices - 1)%nat by lia.
    rewrite (nth_error_nth' prices 0) by lia. reflexivity.
  - replace (Z.of_nat (S k) - 1)%Z with (Z.of_nat k) by lia.
    now rewrite (index_nth prices k 0) by lia.
Qed.

Lemma generate_timeseries_any_rows (prices : list R) (n : nat) :
  (n <= length prices)%nat ->
  generate_timeseries prices n =
  Ok (map (timeseries_row prices n) (seq 0 (length prices - n))).
Proof.
  intros Hn. unfold generate_timeseries.
  assert (Hm : (Z.of_nat (length prices) - Z.of_nat n <? 0)%Z = false)
    by (apply Z.ltb_ge; lia).
  rewrite Hm.
  rewrite (mapM_ok _ (fun i => timeseries_row prices n (Z.to_nat i))).
  - f_equal. unfold range. rewrite map_map.
    replace (Z.to_nat (Z.of_nat (length prices) - Z.of_nat n - 0))
      with (length prices - n)%nat by lia.
    apply map_ext. intros k. f_equal. lia.
  - intros i Hi. apply in_range in Hi. cbv beta.
    assert (Hk : (Z.to_nat i + n < length prices)%nat) by lia.
    assert (Ei : i = Z.of_nat (Z.to_nat i)) by lia.
    set (k := Z.to_nat i) in *. clearbody k. subst i.
    rewrite slice_firstn_skipn by lia.
    rewrite <- Nat2Z.inj_add.
    rewrite (index_nth prices (k + n) 0) by lia. cbn [bind].
    rewrite index_before by lia. reflexivity.
Qed.

Lemma length_timeseries_row (prices : list R) (n i : nat) :
  (i + n <= length prices)%nat -> length (timeseries_row prices n i) = S n.
Proof.
  intros H. unfold timeseries_row.
  rewrite length_app, length_firstn, length_skipn. simpl. lia.
Qed.

(** [generate_timeseries] returns exactly when the window length does
    not exceed the number of prices: then it gives len(prices) - n rows
    of n + 1 entries each (no row when n = len(prices)); a longer
    window raises ValueError. *)
Theorem generate_timeseries_shape (prices : list R) (n : nat) :
  ((n <= length prices)%nat ->
   exists ts,
     generate_timeseries prices n = Ok ts /\
     length ts = (length prices - n)%nat /\
     Forall (fun row => length row = S n) ts) /\
  ((length prices < n)%nat ->
   generate_timeseries prices n = Raise ValueError).
Proof.
  split.
  - intros Hn. eexists. split; [now apply generate_timeseries_any_rows|].
    split; [now rewrite length_map, length_seq|].
    apply Forall_forall. intros row Hrow.
    apply in_map_iff in Hrow. destruct Hrow as (i & <- & Hi).
    apply in_seq in Hi. apply length_timeseries_row. lia.
  - intros Hn. unfold generate_timeseries.
    assert (Hm : (Z.of_nat (length prices) - Z.of_nat n <? 0)%Z = true)
      by (apply Z.ltb_lt; lia).
    now rewrite Hm.
Qed.

Lemma generate_timeseries_shape_witness :
  (exists ts, generate_timeseries [1; 2] 2 = Ok ts /\ length ts = 0%nat) /\
  generate_timeseries [1; 2] 3 = Raise ValueError.
Proof.
  destruct (generate_timeseries_shape [1; 2] 2) as [Hok _].
  destruct (generate_timeseries_shape [1; 2] 3) as [_ Hraise].
  split.
  - destruct (Hok (le_n 2)) as (ts & Hts & Hlen & _).
    exists ts. split; [exact Hts | exact Hlen].
  - exact (Hraise (le_n 3)).
Defined.

(** With a window length of 0 and at least one price nothing is raised:
    every row is a lone label, and the label of row 0 is
    prices[0] - prices[-1], the first price minus the last one, because
    the index -1 wraps around; the label of a later row i is
    prices[i] - prices[i-1]. *)
Theorem generate_timeseries_zero_window (prices : list R) :
  prices <> [] ->
  exists ts,
    generate_timeseries prices 0 = Ok ts /\
    length ts = length prices /\
    nth_error ts 0
    = Some [nth 0 prices 0 - nth (length prices - 1) prices 0] /\
    forall i, (0 < i < length prices)%nat ->
      nth_error ts i = Some [nth i prices 0 - nth (i - 1) prices 0].
Proof.
  intros Hne.
  assert (HL : (0 < length prices)%nat)
    by (destruct prices; [congruence | simpl; lia]).
  eexists. split; [apply generate_timeseries_any_rows; lia|].
  rewrite Nat.sub_0_r.
  split; [now rewrite length_map, length_seq|].
  assert (Hrow : forall i, (i < length prices)%nat ->
            nth_error (map (timeseries_row prices 0) (seq 0 (length prices))) i
            = Some [nth i prices 0 - price_before prices i]).
  { intros i Hi.
    rewrite nth_error_map, (nth_error_nth' _ 0%nat)
      by now rewrite length_seq.
    rewrite seq_nth by assumption. cbn [option_map Nat.add].
    unfold timeseries_row. now rewrite Nat.add_0_r. }
  split; [now rewrite Hrow|].
  intros i Hi. rewrite Hrow by lia.
  destruct i as [|i]; [lia|]. cbn [price_before].
  now rewrite Nat.sub_succ, Nat.sub_0_r.
Qed.

Lemma generate_timeseries_zero_window_witness :
  [3; 5; 4] <> [] /\
  exists ts,
    generate_timeseries [3; 5; 4] 0 = Ok ts /\
    length ts = 3%nat /\
    nth_error ts 0 = Some [3 - 4].
Proof.
  assert (Hne : [3; 5; 4] <> ([] : list R)) by discriminate.
  split; [exact Hne|].
  destruct (generate_timeseries_zero_window [3; 5; 4] Hne)
    as (ts & Hts & Hlen & H0 & _).
  exists ts. split; [exact Hts|]. split; [exact Hlen | exact H0].
Defined.

(** ** [choose_effective_centers]: every [n] *)

Lemma clip_bounds (len i : Z) : (0 <= len -> 0 <= clip len i <= len)%Z.
Proof.
  intros H. unfold clip. destruct (i <? 0)%Z eqn:E.
  - apply Z.ltb_lt in E. lia.
  - apply Z.ltb_ge in E. lia.
Qed.

Lemma slice_to_end {A : Type} (l : list A) (lo : Z) :
  slice l lo (Z.of_nat (length l))
  = skipn (Z.to_nat (clip (Z.of_nat (length l)) lo)) l.
Proof.
  unfold slice.
  pose proof (clip_bounds (Z.of_nat (length l)) lo (Nat2Z.is_nonneg _)) as Hb.
  assert (Hend : clip (Z.of_nat (length l)) (Z.of_nat (length l))
                 = Z.of_nat (length l)).
  { unfold clip.
    assert (H : (Z.of_nat (length l) <? 0)%Z = false) by (apply Z.ltb_ge; lia).
    rewrite H. apply Z.min_id. }
  rewrite Hend. apply firstn_all2. rewrite length_skipn. lia.
Qed.

Lemma StronglySorted_skipn {A : Type} (le : A -> A -> Prop) (l : list A)
    (n : nat) :
  StronglySorted le l -> StronglySorted le (skipn n l).
Proof.
  revert l. induction n as [|n IH]; intros l H; [exact H|].
  destruct l as [|a l]; [constructor|].
  simpl. apply IH. now inversion H.
Qed.

Lemma in_skipn {A : Type} (l : list A) (n : nat) (a : A) :
  In a (skipn n l) -> In a l.
Proof.
  intros H. rewrite <- (firstn_skipn n l). apply in_or_app. now right.
Qed.

Lemma in_firstn {A : Type} (l : list A) (n : nat) (a : A) :
  In a (firstn n l) -> In a l.
Proof.
  intros H. rewrite <- (firstn_skipn n l). apply in_or_app. now left.
Qed.

(** What [choose_effective_centers] returns, for any [n]: the centroids
    at the positions of the sorted order that [[-n:]] keeps. *)
Lemma choose_effective_centers_kept (centers : list (list R)) (n : Z) :
  Forall (fun c => c <> []) centers ->
  let sorted := sort_keys (map peak_to_peak centers) in
  let pick := fun p : R * nat => nth (snd p) centers [] in
  choose_effective_centers centers n
  = Ok (map pick (skipn (left_out (length centers) n) sorted)).
Proof.
  intros Hne sorted pick.
  destruct (sort_keys_facts centers) as (_ & _ & Hlen & Hin).
  fold sorted in Hlen, Hin.
  unfold choose_effective_centers.
  rewrite ptp_peak_to_peak by assumption.
  cbn [bind]. unfold argsort. fold sorted.
  rewrite slice_to_end, length_map, Hlen, skipn_map.
  fold (left_out (length centers) n).
  rewrite (mapM_ok _ (fun j => nth j centers [])).
  - now rewrite map_map.
  - intros j Hj. apply in_map_iff in Hj. destruct Hj as (p & <- & Hp).
    apply index_nth. apply Hin. now apply in_skipn in Hp.
Qed.

Lemma sorted_pick_range (centers : list (list R)) (l : list (R * nat)) :
  (forall p, In p l -> fst p = peak_to_peak (nth (snd p) centers [])) ->
  StronglySorted key_le l ->
  StronglySorted range_le (map (fun p => nth (snd p) centers []) l).
Proof.
  intros Hk Hs. induction Hs as [|p l Hs IH Hp]; [constructor|].
  cbn [map]. constructor.
  - apply IH. intros q Hq. apply Hk. now right.
  - apply Forall_forall. intros c Hc.
    apply in_map_iff in Hc. destruct Hc as (q & <- & Hq).
    rewrite Forall_forall in Hp. specialize (Hp q Hq).
    unfold range_le, key_le in *.
    rewrite <- (Hk p (or_introl eq_refl)), <- (Hk q (or_intror Hq)).
    exact Hp.
Qed.

(** Whatever the integer [n], [choose_effective_centers] applied to
    centroids with at least one coordinate raises nothing; it returns
    centroids of the input, each taken at most as often as it occurs
    there, in ascending order of row range, and no centroid left out
    has a larger range than a returned one. *)
Theorem choose_effective_centers_any_n (centers : list (list R)) (n : Z) :
  Forall (fun c => c <> []) centers ->
  exists chosen rest,
    choose_effective_centers centers n = Ok chosen /\
    Permutation (rest ++ chosen) centers /\
    (forall a b, In a rest -> In b chosen -> range_le a b) /\
    StronglySorted range_le chosen.
Proof.
  intros Hne.
  destruct (sort_keys_facts centers) as (Hperm & Hsorted & Hlen & Hin).
  set (sorted := sort_keys (map peak_to_peak centers)) in *.
  set (pick := fun p : R * nat => nth (snd p) centers []) in *.
  set (k := left_out (length centers) n).
  exists (map pick (skipn k sorted)), (map pick (firstn k sorted)).
  split; [now apply choose_effective_centers_kept|].
  split; [now rewrite <- map_app, firstn_skipn|].
  split.
  - intros a b Ha Hb. apply in_map_iff in Ha, Hb.
    destruct Ha as (p & <- & Hp), Hb as (q & <- & Hq).
    unfold range_le, pick.
    rewrite <- (proj2 (Hin p (in_firstn _ _ _ Hp))).
    rewrite <- (proj2 (Hin q (in_skipn _ _ _ Hq))).
    exact (sorted_prefix_le_suffix key_le sorted Hsorted _ p q Hp Hq).
  - apply sorted_pick_range.
    + intros p Hp. apply Hin. now apply in_skipn in Hp.
    + now apply StronglySorted_skipn.
Qed.

Lemma choose_effective_centers_any_n_witness :
  Forall (fun c => c <> []) two_centers /\
  exists chosen rest,
    choose_effective_centers two_centers (-1) = Ok chosen /\
    Permutation (rest ++ chosen) two_centers /\
    (forall a b, In a rest -> In b chosen -> range_le a b) /\
    StronglySorted range_le chosen.
Proof.
  assert (Hne : Forall (fun c : list R => c <> []) two_centers)
    by (repeat constructor; discriminate).
  split; [exact Hne|].
  exact (choose_effective_centers_any_n two_centers (-1) Hne).
Defined.

Lemma left_out_cases (k : nat) (n : Z) :
  ((0 < n)%Z -> (k - left_out k n = Nat.min (Z.to_nat n) k)%nat) /\
  (n = 0%Z -> left_out k n = 0%nat) /\
  ((n < 0)%Z -> left_out k n = Nat.min (Z.to_nat (- n)) k).
Proof.
  unfold left_out, clip. repeat split; intros H.
  - assert (E : (- n <? 0)%Z = true) by (apply Z.ltb_lt; lia).
    rewrite E. lia.
  - subst n. change (- 0 <? 0)%Z with false. cbv iota. lia.
  - assert (E : (- n <? 0)%Z = false) by (apply Z.ltb_ge; lia).
    rewrite E. lia.
Qed.

(** How many centroids come back, of k with at least one coordinate:
    min(n, k) for n > 0; all k for n = 0, because [[-0:]] is the whole
    order; and for n < 0 the k - min(|n|, k) of largest range, because
    [[-n:]] then drops the first |n| of the order. *)
Theorem choose_effective_centers_count (centers : list (list R)) (n : Z) :
  Forall (fun c => c <> []) centers ->
  exists chosen,
    choose_effective_centers centers n = Ok chosen /\
    ((0 < n)%Z -> length chosen = Nat.min (Z.to_nat n) (length centers)) /\
    (n = 0%Z -> length chosen = length centers) /\
    ((n < 0)%Z ->
     length chosen
     = (length centers - Nat.min (Z.to_nat (- n)) (length centers))%nat).
Proof.
  intros Hne.
  destruct (sort_keys_facts centers) as (_ & _ & Hlen & _).
  eexists. split; [now apply choose_effective_centers_kept|].
  rewrite length_map, length_skipn, Hlen.
  destruct (left_out_cases (length centers) n) as (Hpos & Hzero & Hneg).
  repeat split; intros H.
  - now apply Hpos.
  - rewrite (Hzero H). lia.
  - now rewrite (Hneg H).
Qed.

Lemma choose_effective_centers_count_witness :
  Forall (fun c => c <> []) two_centers /\
  exists chosen,
    choose_effective_centers two_centers 0 = Ok chosen /\
    length chosen = 2%nat.
Proof.
  assert (Hne : Forall (fun c : list R => c <> []) two_centers)
    by (repeat constructor; discriminate).
  split; [exact Hne|].
  destruct (choose_effective_centers_count two_centers 0 Hne)
    as (chosen & Hc & _ & Hzero & _).
  exists chosen. split; [exact Hc | exact (Hzero eq_refl)].
Defined.

(** With n = 0, or with n at least the number of centroids, every
    centroid comes back: the result is a rearrangement of the input. *)
Theorem choose_effective_centers_all (centers : list (list R)) (n : Z) :
  Forall (fun c => c <> []) centers ->
  n = 0%Z \/ (Z.of_nat (length centers) <= n)%Z ->
  exists chosen,
    choose_effective_centers centers n = Ok chosen /\
    Permutation chosen centers.
Proof.
  intros Hne Hn.
  destruct (sort_keys_facts centers) as (Hperm & _ & _ & _).
  eexists. split; [now apply choose_effective_centers_kept|].
  assert (H0 : left_out (length centers) n = 0%nat).
  { unfold left_out, clip.
    destruct Hn as [-> | Hn];
      [change (- 0 <? 0)%Z with false; cbv iota; lia|].
    destruct (- n <? 0)%Z eqn:E.
    - apply Z.ltb_lt in E. lia.
    - apply Z.ltb_ge in E. lia. }
  rewrite H0. exact Hperm.
Qed.

Lemma choose_effective_centers_all_witness :
  Forall (fun c => c <> []) two_centers /\
  (5%Z = 0%Z \/ (Z.of_nat (length two_centers) <= 5)%Z) /\
  exists chosen,
    choose_effective_centers two_centers 5 = Ok chosen /\
    Permutation chosen two_centers.
Proof.
  assert (Hne : Forall (fun c : list R => c <> []) two_centers)
    by (repeat constructor; discriminate).
  assert (Hn : 5%Z = 0%Z \/ (Z.of_nat (length two_centers) <= 5)%Z)
    by (right; simpl; lia).
  split; [exact Hne|]. split; [exact Hn|].
  exact (choose_effective_centers_all two_centers 5 Hne Hn).
Defined.

(** ** [predict_dpi]: widths, bounds and order *)

Lemma index_out_of_range {A : Type} (l : list A) (i : nat) :
  (length l <= i)%nat -> index l (Z.of_nat i) = Raise IndexError.
Proof.
  intros Hi. unfold index.
  assert (Hneg : (Z.of_nat i <? 0)%Z = false) by (apply Z.ltb_ge; lia).
  rewrite Hneg.
  assert (Hout : ((0 <=? Z.of_nat i)
                  && (Z.of_nat i <? Z.of_nat (length l)))%Z = false).
  { apply andb_false_iff. right. apply Z.ltb_ge. lia. }
  now rewrite Hout.
Qed.

Lemma predict_dpi_loop_wide (x : list R) (s : list (list R))
    (num den : number) :
  wide x s ->
  predict_dpi_loop x s num den
  = Ok (match s with
        | [] => (num, den)
        | _ :: _ =>
            (BigFloat
               (to_R num
                + sum (map (fun c => label (length x) c * weight x c) s)),
             BigFloat (to_R den + sum (map (weight x) s)))
        end).
Proof.
  revert num den. induction s as [|c s IH]; intros num den Hs; [reflexivity|].
  inversion Hs as [|? ? Hc Hs']; subst. cbv beta in Hc.
  cbn [predict_dpi_loop].
  rewrite (index_nth c (length x) 0) by lia. cbn [bind].
  rewrite IH by assumption.
  rewrite kernel_exp_weight. unfold label.
  destruct s as [|c' s]; unfold add_big; cbn [to_R map sum fold_right];
    do 2 f_equal; f_equal; ring.
Qed.

Lemma predict_dpi_wide (x : list R) (s : list (list R)) :
  s <> [] -> wide x s ->
  predict_dpi x s = Ok (BigFloat (kernel_estimate x s)).
Proof.
  intros Hne Hs. unfold predict_dpi.
  rewrite predict_dpi_loop_wide by assumption.
  destruct s as [|c s]; [congruence|].
  cbn [bind fst snd div to_R]. unfold kernel_estimate.
  do 2 f_equal. simpl. f_equal; ring.
Qed.

Lemma predict_dpi_loop_short (x : list R) (s : list (list R))
    (num den : number) :
  Exists (fun c => (length c <= length x)%nat) s ->
  predict_dpi_loop x s num den = Raise IndexError.
Proof.
  revert num den. induction s as [|c s IH]; intros num den H.
  - inversion H.
  - cbn [predict_dpi_loop].
    destruct (le_lt_dec (length c) (length x)) as [Hle|Hlt].
    + now rewrite index_out_of_range.
    + rewrite (index_nth c (length x) 0) by assumption. cbn [bind].
      apply IH. inversion H as [? ? Hc|? ? Hs]; subst; [lia|assumption].
Qed.

Lemma predict_dpi_short_center_raise (x : list R) (s : list (list R)) :
  Exists (fun c => (length c <= length x)%nat) s ->
  predict_dpi x s = Raise IndexError.
Proof.
  intros H. unfold predict_dpi.
  now rewrite predict_dpi_loop_short.
Qed.

(** When some center has no entry at position len(x), as when a
    library is used with windows of a longer scale, [predict_dpi]
    raises IndexError, wherever the center stands in the library. *)
Theorem predict_dpi_short_center (x : list R) (s : list (list R)) :
  Exists (fun c => (length c <= length x)%nat) s ->
  predict_dpi x s = Raise IndexError.
Proof.
  exact (predict_dpi_short_center_raise x s).
Qed.

Lemma predict_dpi_short_center_witness :
  Exists (fun c => (length c <= length [1; 2; 3])%nat) [[1; 2; 3; 4]; [1; 2; 3]]
  /\ predict_dpi [1; 2; 3] [[1; 2; 3; 4]; [1; 2; 3]] = Raise IndexError.
Proof.
  assert (H : Exists (fun c : list R => (length c <= length [1; 2; 3])%nat)
                [[1; 2; 3; 4]; [1; 2; 3]])
    by (apply Exists_cons_tl, Exists_cons_hd; simpl; lia).
  split; [exact H|].
  exact (predict_dpi_short_center [1; 2; 3] _ H).
Defined.

Lemma kernel_estimate_truncate (x : list R) (s : list (list R)) :
  kernel_estimate x (map (firstn (S (length x))) s) = kernel_estimate x s.
Proof.
  unfold kernel_estimate. rewrite !map_map.
  assert (Hw : forall c, weight x (firstn (S (length x)) c) = weight x c).
  { intros c. unfold weight, feature.
    now rewrite firstn_firstn, Nat.min_l by lia. }
  assert (Hl : forall c,
            label (length x) (firstn (S (length x)) c) = label (length x) c).
  { intros c. unfold label.
    rewrite <- (firstn_skipn (S (length x)) c) at 2.
    destruct (le_lt_dec (length c) (length x)) as [Hle|Hlt].
    - rewrite firstn_all2 by lia. rewrite skipn_all2 by lia.
      now rewrite app_nil_r.
    - rewrite app_nth1; [reflexivity|]. rewrite length_firstn. lia. }
  f_equal; f_equal; apply map_ext; intros c; now rewrite ?Hl, Hw.
Qed.

(** Centers wider than len(x) + 1 raise nothing: the entry at position
    len(x) is taken as the label and the entries after it are never
    read, so the prediction is that of the centers cut to len(x) + 1
    entries. *)
Theorem predict_dpi_wide_centers (x : list R) (s : list (list R)) :
  s <> [] -> wide x s ->
  predict_dpi x s = Ok (BigFloat (kernel_estimate x s)) /\
  predict_dpi x (map (firstn (S (length x))) s) = predict_dpi x s.
Proof.
  intros Hne Hs. split; [now apply predict_dpi_wide|].
  rewrite (predict_dpi_wide x s) by assumption.
  rewrite predict_dpi_wide.
  - now rewrite kernel_estimate_truncate.
  - destruct s; [congruence | discriminate].
  - unfold wide in *. rewrite Forall_map.
    eapply Forall_impl; [|exact Hs]. intros c Hc. cbv beta in *.
    rewrite length_firstn. lia.
Qed.

Lemma predict_dpi_wide_centers_witness :
  [[1; 2; 3; 9]; [1; 2; 5; 8]] <> [] /\
  wide [1; 2] [[1; 2; 3; 9]; [1; 2; 5; 8]] /\
  predict_dpi [1; 2] (map (firstn 3) [[1; 2; 3; 9]; [1; 2; 5; 8]])
  = predict_dpi [1; 2] [[1; 2; 3; 9]; [1; 2; 5; 8]].
Proof.
  assert (Hne : [[1; 2; 3; 9]; [1; 2; 5; 8]] <> ([] : list (list R)))
    by discriminate.
  assert (Hs : wide [1; 2] [[1; 2; 3; 9]; [1; 2; 5; 8]])
    by (repeat constructor).
  split; [exact Hne|]. split; [exact Hs|].
  exact (proj2 (predict_dpi_wide_centers [1; 2] _ Hne Hs)).
Defined.

Lemma weighted_sum_bounds (x : list R) (s : list (list R)) (lo hi : R) :
  (forall c, In c s -> lo <= label (length x) c <= hi) ->
  lo * sum (map (weight x) s)
  <= sum (map (fun c => label (length x) c * weight x c) s)
  <= hi * sum (map (weight x) s).
Proof.
  induction s as [|c s IH]; intros H; cbn [map sum fold_right]; [lra|].
  fold (sum (map (weight x) s)).
  fold (sum (map (fun c => label (length x) c * weight x c) s)).
  pose proof (weight_pos x c) as Hw.
  pose proof (H c (or_introl eq_refl)) as Hc.
  specialize (IH (fun c' Hc' => H c' (or_intror Hc'))).
  nra.
Qed.

(** The prediction is an average of the labels: when every label of a
    non-empty library lies between lo and hi, so does the value
    [predict_dpi] returns, whatever the query. *)
Theorem predict_dpi_between_labels (x : list R) (s : list (list R))
    (lo hi : R) :
  s <> [] -> wide x s ->
  (forall c, In c s -> lo <= label (length x) c <= hi) ->
  exists r, predict_dpi x s = Ok (BigFloat r) /\ lo <= r <= hi.
Proof.
  intros Hne Hs Hl. eexists. split; [now apply predict_dpi_wide|].
  unfold kernel_estimate.
  pose proof (sum_weights_pos x s Hne) as Hden.
  pose proof (weighted_sum_bounds x s lo hi Hl) as [Hlo Hhi].
  set (num := sum (map (fun c => label (length x) c * weight x c) s)) in *.
  set (den := sum (map (weight x) s)) in *.
  split.
  - apply (Rmult_le_reg_r den); [exact Hden|].
    replace (num / den * den) with num by (field; lra). exact Hlo.
  - apply (Rmult_le_reg_r den); [exact Hden|].
    replace (num / den * den) with num by (field; lra). exact Hhi.
Qed.

Lemma predict_dpi_between_labels_witness :
  [[1; 2; 3]; [4; 0; 5]] <> [] /\
  wide [1; 2] [[1; 2; 3]; [4; 0; 5]] /\
  (forall c, In c [[1; 2; 3]; [4; 0; 5]] -> 3 <= label 2 c <= 5) /\
  exists r, predict_dpi [1; 2] [[1; 2; 3]; [4; 0; 5]] = Ok (BigFloat r)
            /\ 3 <= r <= 5.
Proof.
  assert (Hne : [[1; 2; 3]; [4; 0; 5]] <> ([] : list (list R)))
    by discriminate.
  assert (Hs : wide [1; 2] [[1; 2; 3]; [4; 0; 5]]) by (repeat constructor).
  assert (Hl : forall c, In c [[1; 2; 3]; [4; 0; 5]] -> 3 <= label 2 c <= 5).
  { intros c [<-|[<-|[]]]; unfold label; simpl; lra. }
  split; [exact Hne|]. split; [exact Hs|]. split; [exact Hl|].
  exact (predict_dpi_between_labels [1; 2] _ 3 5 Hne Hs Hl).
Defined.

Lemma sum_map_perm {A : Type} (f : A -> R) (l l' : list A) :
  Permutation l l' -> sum (map f l) = sum (map f l').
Proof.
  induction 1 as [|a l l' _ IH|a b l|l l' l'' _ IH1 _ IH2];
    cbn [map sum fold_right].
  - reflexivity.
  - fold (sum (map f l)). fold (sum (map f l')). now rewrite IH.
  - fold (sum (map f l)). ring.
  - now rewrite IH1.
Qed.

(** Over the reals the order of the centers in the library does not
    matter: two libraries that are rearrangements of one another give
    the same outcome for every query, the same value or the same
    exception. *)
Theorem predict_dpi_order_of_centers (x : list R) (s s' : list (list R)) :
  Permutation s s' -> predict_dpi x s = predict_dpi x s'.
Proof.
  intros Hp.
  destruct (Forall_Exists_dec (fun c => (length x < length c)%nat)
              (fun c => lt_dec (length x) (length c)) s) as [Hw|Hshort].
  - destruct s as [|c s].
    + apply Permutation_nil in Hp. now subst s'.
    + assert (Hw' : wide x s') by exact (Permutation_Forall Hp Hw).
      assert (Hne' : s' <> []).
      { intros ->. apply Permutation_sym, Permutation_nil in Hp.
        discriminate. }
      rewrite !predict_dpi_wide by (assumption || discriminate).
      unfold kernel_estimate.
      now rewrite (sum_map_perm _ _ _ Hp), (sum_map_perm (weight x) _ _ Hp).
  - assert (Hs : Exists (fun c => (length c <= length x)%nat) s).
    { eapply Exists_impl; [|exact Hshort]. intros c Hc. cbv beta in Hc. lia. }
    assert (Hs' : Exists (fun c => (length c <= length x)%nat) s').
    { apply Exists_exists in Hs. destruct Hs as (c & Hin & Hc).
      apply Exists_exists. exists c. split; [|exact Hc].
      exact (Permutation_in _ Hp Hin). }
    now rewrite !predict_dpi_short_center_raise.
Qed.

Lemma predict_dpi_order_of_centers_witness :
  Permutation [[1; 2; 3]; [4; 0; 5]] [[4; 0; 5]; [1; 2; 3]] /\
  predict_dpi [1; 2] [[1; 2; 3]; [4; 0; 5]]
  = predict_dpi [1; 2] [[4; 0; 5]; [1; 2; 3]].
Proof.
  assert (Hp : Permutation [[1; 2; 3]; [4; 0; 5]] [[4; 0; 5]; [1; 2; 3]])
    by apply perm_swap.
  split; [exact Hp|].
  exact (predict_dpi_order_of_centers [1; 2] _ _ Hp).
Defined.

(** ** From the clusterer to the predictor *)



(** ** [linear_regression_vars] and [predict_dps]: edges and composition *)

Lemma range_cons (start stop : Z) :
  (start < stop)%Z -> range start stop = start :: range (start + 1) stop.
Proof.
  intros H. unfold range.
  replace (Z.to_nat (stop - start)) with (S (Z.to_nat (stop - (start + 1))))
    by lia.
  cbn [seq map]. f_equal; [lia|].
  rewrite <- seq_shift, map_map. apply map_ext. intros k. lia.
Qed.

Lemma range_empty (start stop : Z) :
  (stop <= start)%Z -> range start stop = [].
Proof.
  intros H. unfold range.
  replace (Z.to_nat (stop - start)) with 0%nat by lia. reflexivity.
Qed.

(** Periods too short for one timestep. With fewer than 721 prices
    [linear_regression_vars] raises ValueError, from the negative row
    count given to [np.empty], while [predict_dps] returns an empty
    signal; with exactly 721 prices both return nothing to work on (no
    row, no signal). None of this looks at the libraries. *)
Theorem short_period (prices : list R) (s1 s2 s3 : list (list R))
    (w : R * R * R * R) :
  ((length prices < 721)%nat ->
   linear_regression_vars prices s1 s2 s3 = Raise ValueError) /\
  (length prices = 721%nat ->
   linear_regression_vars prices s1 s2 s3 = Ok ([], [])) /\
  ((length prices <= 721)%nat ->
   predict_dps prices s1 s2 s3 w = Ok []).
Proof.
  repeat split; intros HL.
  - unfold linear_regression_vars.
    assert (Hm : (Z.of_nat (length prices) - 721 <? 0)%Z = true)
      by (apply Z.ltb_lt; lia).
    now rewrite Hm.
  - unfold linear_regression_vars.
    assert (Hm : (Z.of_nat (length prices) - 721 <? 0)%Z = false)
      by (apply Z.ltb_ge; lia).
    rewrite Hm, range_empty by lia. reflexivity.
  - unfold predict_dps. destruct w as [[[w0 w1] w2] w3].
    rewrite range_empty by lia. reflexivity.
Qed.

Lemma short_period_witness :
  linear_regression_vars [1; 2] [] [] [] = Raise ValueError /\
  predict_dps [1; 2] [] [] [] (0, 1, 1, 1) = Ok [].
Proof.
  destruct (short_period [1; 2] [] [] [] (0, 1, 1, 1)) as (Hlt & _ & Hle).
  assert (H1 : (length [1; 2] < 721)%nat) by (apply Nat.ltb_lt; reflexivity).
  assert (H2 : (length [1; 2] <= 721)%nat) by (apply Nat.leb_le; reflexivity).
  split; [exact (Hlt H1) | exact (Hle H2)].
Defined.

Lemma predict_dp123_empty_library (prices : list R)
    (s1 s2 s3 : list (list R)) (i : nat) :
  (720 <= i <= length prices)%nat ->
  s1 = [] \/ (usable_library 180 s1 /\ s2 = [])
  \/ (usable_library 180 s1 /\ usable_library 360 s2 /\ s3 = []) ->
  predict_dp123 prices s1 s2 s3 (Z.of_nat i) = Raise ZeroDivisionError.
Proof.
  intros Hi H. unfold predict_dp123.
  change 180%Z with (Z.of_nat 180).
  change 360%Z with (Z.of_nat 360).
  destruct H as [-> | [[H1 ->] | [H1 [H2 ->]]]].
  - reflexivity.
  - rewrite (predict_dpi_trailing prices 180 i s1) by (assumption || lia).
    reflexivity.
  - rewrite (predict_dpi_trailing prices 180 i s1) by (assumption || lia).
    cbn [bind].
    rewrite (predict_dpi_trailing prices 360 i s2) by (assumption || lia).
    reflexivity.
Qed.

(** An empty library stops both functions at the first timestep: with
    at least 722 prices, when one of the three libraries is empty and
    the ones used before it are in order, [linear_regression_vars] and
    [predict_dps] raise ZeroDivisionError and return no row and no
    signal. *)
Theorem empty_library_propagates (prices : list R) (s1 s2 s3 : list (list R))
    (w : R * R * R * R) :
  (722 <= length prices)%nat ->
  s1 = [] \/ (usable_library 180 s1 /\ s2 = [])
  \/ (usable_library 180 s1 /\ usable_library 360 s2 /\ s3 = []) ->
  linear_regression_vars prices s1 s2 s3 = Raise ZeroDivisionError /\
  predict_dps prices s1 s2 s3 w = Raise ZeroDivisionError.
Proof.
  intros HL H.
  assert (Hp : predict_dp123 prices s1 s2 s3 720 = Raise ZeroDivisionError).
  { change 720%Z with (Z.of_nat 720).
    apply predict_dp123_empty_library; [lia | exact H]. }
  split.
  - unfold linear_regression_vars.
    assert (Hm : (Z.of_nat (length prices) - 721 <? 0)%Z = false)
      by (apply Z.ltb_ge; lia).
    rewrite Hm, range_cons by lia. cbn [mapM].
    change (720 + 1)%Z with (Z.of_nat 721).
    rewrite (index_nth prices 721 0) by lia. cbn [bind].
    change 720%Z with (Z.of_nat 720) at 1.
    rewrite (index_nth prices 720 0) by lia. cbn [bind].
    rewrite Hp. reflexivity.
  - unfold predict_dps. destruct w as [[[w0 w1] w2] w3].
    rewrite range_cons by lia. cbn [mapM]. rewrite Hp. reflexivity.
Qed.

Lemma empty_library_propagates_witness :
  (722 <= length flat_prices)%nat /\
  linear_regression_vars flat_prices [] flat_s2 flat_s3
  = Raise ZeroDivisionError /\
  predict_dps flat_prices [] flat_s2 flat_s3 (0, 1, 1, 1)
  = Raise ZeroDivisionError.
Proof.
  split; [exact flat_prices_length|].
  exact (empty_library_propagates flat_prices [] flat_s2 flat_s3 (0, 1, 1, 1)
           flat_prices_length (or_introl eq_refl)).
Defined.

Lemma predict_dps_ok (prices : list R) (s1 s2 s3 : list (list R))
    (w : R * R * R * R) :
  (721 <= length prices)%nat ->
  usable_library 180 s1 -> usable_library 360 s2 -> usable_library 720 s3 ->
  predict_dps prices s1 s2 s3 w
  = Ok (map (fun i => blend w (fst (regression_row prices s1 s2 s3
                                      (Z.to_nat i))))
            (range 720 (Z.of_nat (length prices) - 1))).
Proof.
  intros HL H1 H2 H3. unfold predict_dps.
  destruct w as [[[w0 w1] w2] w3].
  apply mapM_ok.
  intros i Hi. apply in_range in Hi. cbv beta.
  assert (Hk : (720 <= Z.to_nat i <= length prices)%nat) by lia.
  assert (Ei : i = Z.of_nat (Z.to_nat i)) by lia.
  set (k := Z.to_nat i) in *. clearbody k. subst i.
  rewrite (predict_dp123_estimates prices s1 s2 s3 H1 H2 H3) by lia.
  reflexivity.
Qed.

(** On one period, the signal is the blend of the regression rows: for
    at least 721 prices and libraries that [predict_dpi] accepts,
    [predict_dps] returns, entry by entry,
    w0 + w1 * X[j][0] + w2 * X[j][1] + w3 * X[j][2]
    for the X of [linear_regression_vars]. *)
Theorem predict_dps_blends_rows (prices : list R) (s1 s2 s3 : list (list R))
    (w : R * R * R * R) :
  (721 <= length prices)%nat ->
  usable_library 180 s1 -> usable_library 360 s2 -> usable_library 720 s3 ->
  exists X Y,
    linear_regression_vars prices s1 s2 s3 = Ok (X, Y) /\
    predict_dps prices s1 s2 s3 w = Ok (map (blend w) X).
Proof.
  intros HL H1 H2 H3.
  rewrite linear_regression_vars_ok, predict_dps_ok by assumption.
  cbv zeta. do 2 eexists. split; [reflexivity|].
  now rewrite !map_map.
Qed.

Lemma predict_dps_blends_rows_witness :
  (721 <= length flat_prices)%nat /\
  usable_library 180 flat_s1 /\ usable_library 360 flat_s2 /\
  usable_library 720 flat_s3 /\
  exists X Y,
    linear_regression_vars flat_prices flat_s1 flat_s2 flat_s3 = Ok (X, Y) /\
    predict_dps flat_prices flat_s1 flat_s2 flat_s3 (0, 1, 1, 1)
    = Ok (map (blend (0, 1, 1, 1)) X).
Proof.
  destruct flat_libraries as (H1 & H2 & H3).
  assert (HL : (721 <= length flat_prices)%nat)
    by (apply Nat.leb_le; reflexivity).
  split; [exact HL|].
  split; [exact H1|]. split; [exact H2|]. split; [exact H3|].
  exact (predict_dps_blends_rows flat_prices flat_s1 flat_s2 flat_s3
           (0, 1, 1, 1) HL H1 H2 H3).
Defined.

Lemma feature_window_row (prices : list R) (n i : nat) :
  feature n (window_row prices n i) = map (fun k => nth k prices 0) (seq i n).
Proof.
  unfold feature, window_row.
  rewrite firstn_app, length_map, length_seq, Nat.sub_diag.
  cbn [firstn]. rewrite app_nil_r. apply firstn_all2.
  now rewrite length_map, length_seq.
Qed.

Lemma label_window_row (prices : list R) (n i : nat) :
  label n (window_row prices n i)
  = nth (i + n) prices 0 - nth (i + n - 1) prices 0.
Proof.
  unfold label, window_row.
  rewrite app_nth2 by (rewrite length_map, length_seq; lia).
  now rewrite length_map, length_seq, Nat.sub_diag.
Qed.

Lemma nth_error_map_seq {B : Type} (g : nat -> B) (n j : nat) :
  (j < n)%nat -> nth_error (map g (seq 0 n)) j = Some (g j).
Proof.
  intros Hj. rewrite nth_error_map.
  rewrite (nth_error_nth' _ 0%nat) by now rewrite length_seq.
  now rewrite seq_nth.
Qed.

(** How the regression rows sit against the windows of
    [generate_timeseries(prices, 720)] on one period of at least 722
    prices: the third predictor of row j is the prediction for the
    feature of window j, and Y[j] is the label of window j + 1. The
    window that the clusterer saw with the change prices[i] -
    prices[i-1] is paired, in the regression, with the change one step
    later, prices[i+1] - prices[i]. *)
Theorem regression_label_is_next_window
    (prices : list R) (s1 s2 s3 : list (list R)) :
  (722 <= length prices)%nat ->
  usable_library 180 s1 -> usable_library 360 s2 -> usable_library 720 s3 ->
  exists X Y ts,
    linear_regression_vars prices s1 s2 s3 = Ok (X, Y) /\
    generate_timeseries prices 720 = Ok ts /\
    forall j, (j < length prices - 721)%nat ->
      exists window next dp3,
        nth_error ts j = Some window /\
        nth_error ts (j + 1) = Some next /\
        predict_dpi (feature 720 window) s3 = Ok dp3 /\
        option_map (fun row => nth 2 row 0) (nth_error X j)
        = Some (to_R dp3) /\
        nth_error Y j = Some (label 720 next) /\
        label 720 window
        = nth (720 + j) prices 0 - nth (720 + j - 1) prices 0 /\
        label 720 next
        = nth (720 + j + 1) prices 0 - nth (720 + j) prices 0.
Proof.
  intros HL H1 H2 H3.
  rewrite linear_regression_vars_ok by (assumption || lia).
  rewrite generate_timeseries_rows by lia.
  cbv zeta. do 3 eexists. split; [reflexivity|]. split; [reflexivity|].
  intros j Hj.
  exists (window_row prices 720 j), (window_row prices 720 (j + 1)).
  exists (BigFloat (kernel_estimate (trailing_window prices 720 (720 + j)) s3)).
  rewrite !nth_error_map_seq by lia.
  split; [reflexivity|]. split; [reflexivity|].
  rewrite feature_window_row, !label_window_row.
  split.
  { destruct H3 as [N3 L3].
    replace (map (fun k => nth k prices 0) (seq j 720))
      with (trailing_window prices 720 (720 + j)).
    - apply predict_dpi_estimate; [assumption|].
      now rewrite length_trailing_window.
    - unfold trailing_window. do 2 f_equal. lia. }
  rewrite !map_map.
  assert (Hrow : forall {B} (g : Z -> B),
            nth_error (map g (range 720 (Z.of_nat (length prices) - 1))) j
            = Some (g (720 + Z.of_nat j)%Z)).
  { intros B g. apply nth_error_map_range. lia. }
  rewrite !Hrow.
  replace (Z.to_nat (720 + Z.of_nat j)) with (720 + j)%nat by lia.
  unfold regression_row, estimates. cbn [fst snd option_map nth to_R].
  replace (j + 1 + 720)%nat with (720 + j + 1)%nat by lia.
  replace (720 + j + 1 - 1)%nat with (720 + j)%nat by lia.
  replace (j + 720)%nat with (720 + j)%nat by lia.
  repeat split; reflexivity.
Qed.

Lemma regression_label_is_next_window_witness :
  (722 <= length flat_prices)%nat /\
  usable_library 180 flat_s1 /\ usable_library 360 flat_s2 /\
  usable_library 720 flat_s3 /\
  exists X Y ts,
    linear_regression_vars flat_prices flat_s1 flat_s2 flat_s3 = Ok (X, Y) /\
    generate_timeseries flat_prices 720 = Ok ts /\
    exists next,
      nth_error ts 1 = Some next /\ nth_error Y 0 = Some (label 720 next).
Proof.
  destruct flat_libraries as (H1 & H2 & H3).
  split; [exact flat_prices_length|].
  split; [exact H1|]. split; [exact H2|]. split; [exact H3|].
  destruct (regression_label_is_next_window flat_prices flat_s1 flat_s2
              flat_s3 flat_prices_length H1 H2 H3)
    as (X & Y & ts & HXY & Hts & Hrows).
  assert (H0 : (0 < length flat_prices - 721)%nat)
    by (apply Nat.ltb_lt; reflexivity).
  destruct (Hrows 0%nat H0) as (window & next & dp3 & _ & Hn & _ & _ & HY & _).
  exists X, Y, ts. split; [exact HXY|]. split; [exact Hts|].
  exists next. split; [exact Hn | exact HY].
Defined.

(** ** The simulators: strides, signals and prices *)

Lemma in_range_step (start stop step : Z) (idx : list Z) (i : Z) :
  (0 < step)%Z -> range_step start stop step = Ok idx -> In i idx ->
  (start <= i < stop)%Z.
Proof.
  intros Hs H Hi. unfold range_step in H.
  assert (E0 : (step =? 0)%Z = false) by (apply Z.eqb_neq; lia).
  assert (E1 : (0 <? step)%Z = true) by (apply Z.ltb_lt; lia).
  rewrite E0, E1 in H. inversion H; subst idx. clear H.
  apply in_map_iff in Hi. destruct Hi as (k & <- & Hk).
  apply in_seq in Hk.
  pose proof (Z.mul_div_le (stop - start + step - 1) step Hs) as Hd.
  set (q := ((stop - start + step - 1) / step)%Z) in *.
  nia.
Qed.

Lemma range_step_no_timestep (stop step : Z) :
  ((0 < step)%Z /\ (stop <= 720)%Z) \/ ((step < 0)%Z /\ (720 <= stop)%Z) ->
  range_step 720 stop step = Ok [].
Proof.
  intros H. unfold range_step.
  assert (E0 : (step =? 0)%Z = false) by (apply Z.eqb_neq; lia).
  rewrite E0. f_equal.
  destruct H as [[Hs Hstop] | [Hs Hstop]].
  - assert (E1 : (0 <? step)%Z = true) by (apply Z.ltb_lt; lia).
    rewrite E1.
    assert (Hq : ((stop - 720 + step - 1) / step <= 0)%Z).
    { apply Z.lt_succ_r. apply Z.div_lt_upper_bound; lia. }
    replace (Z.to_nat ((stop - 720 + step - 1) / step)) with 0%nat by lia.
    reflexivity.
  - assert (E1 : (0 <? step)%Z = false) by (apply Z.ltb_ge; lia).
    rewrite E1.
    assert (Hq : ((720 - stop - step - 1) / - step <= 0)%Z).
    { apply Z.lt_succ_r. apply Z.div_lt_upper_bound; lia. }
    replace (Z.to_nat ((720 - stop - step - 1) / - step)) with 0%nat by lia.
    reflexivity.
Qed.

(** Strides and periods that leave nothing to evaluate. A stride of 0
    makes both simulators raise ValueError. With a positive stride and
    at most 721 prices, or a negative stride and at least 721 prices,
    no timestep is evaluated and the signal is not read: the balance is
    0 and the inventory 0. *)
Theorem stride_edges (prices dps : list R) (t : R) (step : Z) :
  (step = 0%Z ->
   evaluate_performance prices dps t step = Raise ValueError /\
   evaluate_performance2 prices dps t step = Raise ValueError) /\
  (((0 < step)%Z /\ (length prices <= 721)%nat)
   \/ ((step < 0)%Z /\ (721 <= length prices)%nat) ->
   evaluate_performance prices dps t step = Ok 0 /\
   evaluate_performance2 prices dps t step = Ok (0, 0%Z)).
Proof.
  split.
  - intros ->. split; reflexivity.
  - intros H. unfold evaluate_performance, evaluate_performance2.
    rewrite range_step_no_timestep by lia.
    split; reflexivity.
Qed.

Lemma stride_edges_witness :
  evaluate_performance flat_prices [] 0 0 = Raise ValueError /\
  evaluate_performance flat_prices [] 0 (-1) = Ok 0 /\
  evaluate_performance2 flat_prices [] 0 (-1) = Ok (0, 0%Z).
Proof.
  destruct (stride_edges flat_prices [] 0 0) as [Hzero _].
  destruct (stride_edges flat_prices [] 0 (-1)) as [_ Hneg].
  assert (HL : (721 <= length flat_prices)%nat)
    by (apply Nat.leb_le; reflexivity).
  split; [exact (proj1 (Hzero eq_refl))|].
  exact (Hneg (or_intror (conj eq_refl HL))).
Defined.

Lemma for_loop_invariant {St : Type} (P : St -> Prop)
    (body : St -> Z -> result St) (idx : list Z) (st : St) :
  P st ->
  (forall i st, In i idx -> P st -> exists st', body st i = Ok st' /\ P st') ->
  exists st', for_loop body st idx = Ok st' /\ P st'.
Proof.
  revert st. induction idx as [|i idx IH]; intros st HP Hbody.
  - exists st. now split.
  - destruct (Hbody i st (or_introl eq_refl) HP) as (st1 & E & HP1).
    cbn [for_loop]. rewrite E. cbn [bind].
    apply IH; [assumption|].
    intros j st' Hj. apply Hbody. now right.
Qed.

Lemma for_loop_preserves {St : Type} (P : St -> Prop)
    (body : St -> Z -> result St) (idx : list Z) (st st' : St) :
  (forall i st st', P st -> body st i = Ok st' -> P st') ->
  P st -> for_loop body st idx = Ok st' -> P st'.
Proof.
  intros Hbody. revert st. induction idx as [|i idx IH]; intros st HP H.
  - cbn in H. inversion H. now subst.
  - cbn [for_loop] in H.
    destruct (body st i) as [st1|e] eqn:E; [|discriminate].
    cbn [bind] in H. exact (IH st1 (Hbody i st st1 HP E) H).
Qed.

Lemma aligned_lookups (prices dps : list R) (i : Z) :
  aligned prices dps ->
  (720 <= i < Z.of_nat (length prices) - 1)%Z ->
  index dps (i - 720) = Ok (nth (Z.to_nat (i - 720)) dps 0) /\
  index prices i = Ok (nth (Z.to_nat i) prices 0).
Proof.
  unfold aligned. intros Ha Hi. split.
  - rewrite <- (Z2Nat.id (i - 720)) at 1 by lia.
    apply index_nth. lia.
  - rewrite <- (Z2Nat.id i) at 1 by lia.
    apply index_nth. lia.
Qed.

Lemma body_aligned (prices dps : list R) (t : R) (i : Z) (st : ledger) :
  aligned prices dps ->
  (720 <= i < Z.of_nat (length prices) - 1)%Z ->
  exists st', evaluate_performance_body prices dps t st i = Ok st'.
Proof.
  intros Ha Hi. destruct (aligned_lookups prices dps i Ha Hi) as [Hd Hp].
  unfold evaluate_performance_body, buy, sell.
  rewrite Hd. cbn [bind].
  destruct (buy_guard _ t (position st)); rewrite ?Hp; cbn [bind];
    rewrite ?Hd; cbn [bind];
    (match goal with
     | |- context [sell_guard ?d ?t ?p] => destruct (sell_guard d t p)
     end);
    rewrite ?Hp; cbn [bind]; eexists; reflexivity.
Qed.

Lemma body2_aligned (prices dps : list R) (t : R) (i : Z) (st : ledger2) :
  aligned prices dps ->
  (720 <= i < Z.of_nat (length prices) - 1)%Z ->
  exists st', evaluate_performance2_body prices dps t st i = Ok st'.
Proof.
  intros Ha Hi. destruct (aligned_lookups prices dps i Ha Hi) as [Hd Hp].
  unfold evaluate_performance2_body, buy2, sell2.
  rewrite Hd. cbn [bind].
  destruct (buy_guard2 _ t); rewrite ?Hp; cbn [bind]; rewrite ?Hd;
    cbn [bind]; destruct (sell_guard2 _ t);
    rewrite ?Hp; cbn [bind]; eexists; reflexivity.
Qed.

Lemma close_out_ok (prices : list R) (st : ledger) :
  prices <> [] \/ position st = 0%Z -> exists b, close_out prices st = Ok b.
Proof.
  intros H. unfold close_out.
  destruct H as [Hne | H0].
  - assert (Hl : index prices (Z.of_nat (length prices) - 1)
                 = Ok (nth (length prices - 1) prices 0)).
    { replace (Z.of_nat (length prices) - 1)%Z
        with (Z.of_nat (length prices - 1)).
      - apply index_nth. destruct prices; [congruence | simpl; lia].
      - destruct prices; [congruence | simpl length; lia]. }
    rewrite Hl.
    destruct (position st =? 1)%Z; cbn [bind];
      destruct (position st =? -1)%Z; cbn [bind]; eexists; reflexivity.
  - rewrite H0. cbn. eexists; reflexivity.
Qed.

Lemma evaluate_performance_aligned_ok (prices dps : list R) (t : R) (step : Z) :
  (0 < step)%Z -> aligned prices dps ->
  (exists b, evaluate_performance prices dps t step = Ok b) /\
  (exists b k, evaluate_performance2 prices dps t step = Ok (b, k)).
Proof.
  intros Hs Ha.
  unfold evaluate_performance, evaluate_performance2.
  destruct (range_step 720 (Z.of_nat (length prices) - 1) step)
    as [idx|e] eqn:E.
  2:{ unfold range_step in E.
      assert (E0 : (step =? 0)%Z = false) by (apply Z.eqb_neq; lia).
      rewrite E0 in E. discriminate. }
  cbn [bind]. split.
  - destruct (for_loop_invariant (fun _ => True)
                (evaluate_performance_body prices dps t) idx flat I)
      as (st & Hst & _).
    { intros i st Hi _.
      destruct (body_aligned prices dps t i st Ha
                  (in_range_step _ _ _ _ _ Hs E Hi)) as (st' & H').
      now exists st'. }
    rewrite Hst. cbn [bind]. apply close_out_ok.
    destruct prices as [|p prices]; [right|left; discriminate].
    destruct idx as [|i idx].
    + cbn in Hst. inversion Hst. reflexivity.
    + pose proof (in_range_step _ _ _ _ i Hs E (or_introl eq_refl)) as Hi.
      simpl in Hi. lia.
  - destruct (for_loop_invariant (fun _ => True)
                (evaluate_performance2_body prices dps t) idx
                {| bank_balance2 := 0; bitcoin := 0 |} I)
      as (st & Hst & _).
    { intros i st Hi _.
      destruct (body2_aligned prices dps t i st Ha
                  (in_range_step _ _ _ _ _ Hs E Hi)) as (st' & H').
      now exists st'. }
    rewrite Hst. cbn [bind]. do 2 eexists. reflexivity.
Qed.

(** A signal with one entry per eligible timestep, as [predict_dps]
    returns it for the same prices, is enough for both simulators:
    with len(dps) = len(prices) - 721 (0 for a shorter period) and a
    positive stride, [evaluate_performance] returns a balance and
    [evaluate_performance2] a balance and an inventory; no lookup goes
    out of range, whatever the threshold. *)
Theorem simulators_accept_aligned_signal
    (prices dps : list R) (t : R) (step : Z) :
  (0 < step)%Z ->
  length dps = (length prices - 721)%nat ->
  (exists b, evaluate_performance prices dps t step = Ok b) /\
  (exists b k, evaluate_performance2 prices dps t step = Ok (b, k)).
Proof. exact (evaluate_performance_aligned_ok prices dps t step). Qed.

Lemma simulators_accept_aligned_signal_witness :
  (0 < 1)%Z /\
  length [1] = (length flat_prices - 721)%nat /\
  (exists b, evaluate_performance flat_prices [1] 0 1 = Ok b) /\
  (exists b k, evaluate_performance2 flat_prices [1] 0 1 = Ok (b, k)).
Proof.
  assert (Hs : (0 < 1)%Z) by reflexivity.
  assert (Ha : length [1] = (length flat_prices - 721)%nat) by reflexivity.
  split; [exact Hs|]. split; [exact Ha|].
  exact (simulators_accept_aligned_signal flat_prices [1] 0 1 Hs Ha).
Defined.

Lemma index_In {A : Type} (l : list A) (i : Z) (a : A) :
  index l i = Ok a -> In a l.
Proof.
  unfold index. intros H.
  destruct ((0 <=? _) && _)%Z; [|discriminate].
  destruct (nth_error l _) as [b|] eqn:E; [|discriminate].
  inversion H; subst. exact (nth_error_In _ _ E).
Qed.

Section ConstantPrices.

Variables (prices dps : list R) (t p : R).
Hypothesis Hconst : Forall (eq p) prices.

Let cash_matches (st : ledger) : Prop :=
  bank_balance st = - IZR (position st) * p /\ bounded st.

Let cash_matches2 (st : ledger2) : Prop :=
  bank_balance2 st = - IZR (bitcoin st) * p.

Lemma index_constant (i : Z) (q : R) : index prices i = Ok q -> q = p.
Proof.
  intros H. apply index_In in H.
  rewrite Forall_forall in Hconst. symmetry. now apply Hconst.
Qed.

Lemma body_cash_matches (i : Z) (st st' : ledger) :
  cash_matches st ->
  evaluate_performance_body prices dps t st i = Ok st' -> cash_matches st'.
Proof.
  intros [Hc Hb] H. unfold evaluate_performance_body in H.
  destruct (buy prices dps t i st) as [st1|e] eqn:E1; [|discriminate].
  cbn [bind] in H.
  split;
    [|exact (sell_bounded _ _ _ _ _ _ (buy_bounded _ _ _ _ _ _ Hb E1) H)].
  assert (H1 : bank_balance st1 = - IZR (position st1) * p).
  { unfold buy in E1.
    destruct (index dps (i - 720)) as [d|e]; [|discriminate].
    cbn [bind] in E1.
    destruct (buy_guard d t (position st)); [|inversion E1; now subst].
    destruct (index prices i) as [q|e] eqn:Eq; [|discriminate].
    apply index_constant in Eq. subst q.
    inversion E1; subst. cbn [bank_balance position].
    rewrite plus_IZR, Hc. simpl. ring. }
  unfold sell in H.
  destruct (index dps (i - 720)) as [d|e]; [|discriminate].
  cbn [bind] in H.
  destruct (sell_guard d t (position st1)); [|inversion H; now subst].
  destruct (index prices i) as [q|e] eqn:Eq; [|discriminate].
  apply index_constant in Eq. subst q.
  inversion H; subst. cbn [bank_balance position].
  rewrite minus_IZR, H1. simpl. ring.
Qed.

Lemma body2_cash_matches (i : Z) (st st' : ledger2) :
  cash_matches2 st ->
  evaluate_performance2_body prices dps t st i = Ok st' -> cash_matches2 st'.
Proof.
  unfold cash_matches2. intros Hc H.
  unfold evaluate_performance2_body in H.
  destruct (buy2 prices dps t i st) as [st1|e] eqn:E1; [|discriminate].
  cbn [bind] in H.
  assert (H1 : bank_balance2 st1 = - IZR (bitcoin st1) * p).
  { unfold buy2 in E1.
    destruct (index dps (i - 720)) as [d|e]; [|discriminate].
    cbn [bind] in E1.
    destruct (buy_guard2 d t); [|inversion E1; now subst].
    destruct (index prices i) as [q|e] eqn:Eq; [|discriminate].
    apply index_constant in Eq. subst q.
    inversion E1; subst. cbn [bank_balance2 bitcoin].
    rewrite plus_IZR, Hc. simpl. ring. }
  unfold sell2 in H.
  destruct (index dps (i - 720)) as [d|e]; [|discriminate].
  cbn [bind] in H.
  destruct (sell_guard2 d t); [|inversion H; now subst].
  destruct (index prices i) as [q|e] eqn:Eq; [|discriminate].
  apply index_constant in Eq. subst q.
  inversion H; subst. cbn [bank_balance2 bitcoin].
  rewrite minus_IZR, H1. simpl. ring.
Qed.

Lemma constant_prices_balances (step : Z) :
  (forall b, evaluate_performance prices dps t step = Ok b -> b = 0) /\
  (forall b k, evaluate_performance2 prices dps t step = Ok (b, k) ->
     b = - IZR k * p).
Proof.
  split.
  - intros b H. unfold evaluate_performance in H.
    destruct (range_step 720 (Z.of_nat (length prices) - 1) step)
      as [idx|e]; [|discriminate].
    cbn [bind] in H.
    destruct (for_loop (evaluate_performance_body prices dps t) flat idx)
      as [st|e] eqn:E; [|discriminate].
    cbn [bind] in H.
    assert (Hst : cash_matches st).
    { apply (for_loop_preserves cash_matches
               (evaluate_performance_body prices dps t) idx flat st);
        [|  |exact E].
      - intros i s s'. apply body_cash_matches.
      - split; [simpl; ring | right; left; reflexivity]. }
    destruct Hst as [Hc Hb]. unfold close_out in H.
    destruct Hb as [Hp | [Hp | Hp]]; rewrite Hp in H, Hc; cbn in H.
    + destruct (index prices (Z.of_nat (length prices) - 1)) as [q|e] eqn:Eq;
        [|discriminate].
      apply index_constant in Eq. subst q.
      cbn [bind] in H. inversion H. rewrite Hc. simpl. ring.
    + inversion H. rewrite Hc. simpl. ring.
    + destruct (index prices (Z.of_nat (length prices) - 1)) as [q|e] eqn:Eq;
        [|discriminate].
      apply index_constant in Eq. subst q.
      cbn [bind] in H. inversion H. rewrite Hc. simpl. ring.
  - intros b k H. unfold evaluate_performance2 in H.
    destruct (range_step 720 (Z.of_nat (length prices) - 1) step)
      as [idx|e]; [|discriminate].
    cbn [bind] in H.
    destruct (for_loop (evaluate_performance2_body prices dps t)
                {| bank_balance2 := 0; bitcoin := 0 |} idx)
      as [st|e] eqn:E; [|discriminate].
    cbn [bind] in H.
    assert (Hst : cash_matches2 st).
    { apply (for_loop_preserves cash_matches2
               (evaluate_performance2_body prices dps t) idx
               {| bank_balance2 := 0; bitcoin := 0 |} st); [|  |exact E].
      - intros i s s'. apply body2_cash_matches.
      - unfold cash_matches2. simpl. ring. }
    inversion H; subst. exact Hst.
Qed.

End ConstantPrices.

(** On a period whose prices are all equal nothing is earned or lost
    (over the reals): whatever the signal, the threshold and the
    stride, a balance that [evaluate_performance] returns is 0, and
    [evaluate_performance2] returns a balance equal to minus the
    inventory times the price. *)
Theorem constant_prices_earn_nothing
    (prices dps : list R) (t p : R) (step : Z) :
  Forall (eq p) prices ->
  (forall b, evaluate_performance prices dps t step = Ok b -> b = 0) /\
  (forall b k, evaluate_performance2 prices dps t step = Ok (b, k) ->
     b = - IZR k * p).
Proof.
  intros Hconst. exact (constant_prices_balances prices dps t p Hconst step).
Qed.

Lemma flat_prices_constant : Forall (eq 1) flat_prices.
Proof.
  apply Forall_forall. intros q Hq. symmetry.
  exact (repeat_spec _ _ _ Hq).
Qed.

Lemma constant_prices_earn_nothing_witness :
  Forall (eq 1) flat_prices /\
  exists b, evaluate_performance flat_prices [1] 0 1 = Ok b /\ b = 0.
Proof.
  split; [exact flat_prices_constant|].
  destruct (proj1 (evaluate_performance_aligned_ok flat_prices [1] 0 1
                     eq_refl eq_refl)) as (b & Hb).
  exists b. split; [exact Hb|].
  exact (proj1 (constant_prices_earn_nothing flat_prices [1] 0 1 1
                  flat_prices_constant) b Hb).
Defined.

(** With a negative threshold t and a signal value strictly between t
    and -t, both guards hold at the same timestep and both branches
    run. In [evaluate_performance], from a position of -1 or 0, the buy
    branch moves the ledger to position + 1 and balance - p, and the
    sell branch, whose guard holds on the new position, moves it back;
    in [evaluate_performance2] the same happens from any inventory. *)
Theorem negative_threshold_both_branches
    (prices dps : list R) (t d p : R) (i : Z) :
  t < d -> d < - t ->
  index dps (i - 720) = Ok d -> index prices i = Ok p ->
  (forall st, (-1 <= position st <= 0)%Z ->
     let bought := {| bank_balance := bank_balance st - p;
                      position := position st + 1 |} in
     buy_guard d t (position st) = true /\
     buy prices dps t i st = Ok bought /\
     position bought <> position st /\
     sell_guard d t (position bought) = true /\
     sell prices dps t i bought
     = Ok {| bank_balance := bank_balance bought + p;
             position := position bought - 1 |} /\
     evaluate_performance_body prices dps t st i
     = Ok {| bank_balance := bank_balance st - p + p;
             position := position st + 1 - 1 |}) /\
  (forall st,
     let bought := {| bank_balance2 := bank_balance2 st - p;
                      bitcoin := bitcoin st + 1 |} in
     buy_guard2 d t = true /\
     buy2 prices dps t i st = Ok bought /\
     bitcoin bought <> bitcoin st /\
     sell_guard2 d t = true /\
     sell2 prices dps t i bought
     = Ok {| bank_balance2 := bank_balance2 bought + p;
             bitcoin := bitcoin bought - 1 |} /\
     evaluate_performance2_body prices dps t st i
     = Ok {| bank_balance2 := bank_balance2 st - p + p;
             bitcoin := bitcoin st + 1 - 1 |}).
Proof.
  intros Hlo Hhi Hd Hp.
  assert (Eb : Rltb t d = true) by now apply Rltb_true.
  assert (Es : Rltb d (- t) = true) by now apply Rltb_true.
  split.
  - intros st Hpos bought.
    assert (E1 : (position st <=? 0)%Z = true) by (apply Z.leb_le; lia).
    assert (E2 : (0 <=? position st + 1)%Z = true) by (apply Z.leb_le; lia).
    assert (Gb : buy_guard d t (position st) = true)
      by (unfold buy_guard; now rewrite Eb, E1).
    assert (Gs : sell_guard d t (position bought) = true)
      by (unfold sell_guard, bought; cbn [position]; now rewrite Es, E2).
    assert (Hbuy : buy prices dps t i st = Ok bought)
      by (unfold buy; rewrite Hd; cbn [bind]; now rewrite Gb, Hp).
    assert (Hsell : sell prices dps t i bought
                    = Ok {| bank_balance := bank_balance bought + p;
                            position := position bought - 1 |})
      by (unfold sell; rewrite Hd; cbn [bind]; now rewrite Gs, Hp).
    repeat split; try assumption.
    + unfold bought. cbn [position]. lia.
    + unfold evaluate_performance_body. rewrite Hbuy. cbn [bind].
      exact Hsell.
  - intros st bought.
    assert (Hbuy : buy2 prices dps t i st = Ok bought)
      by (unfold buy2, buy_guard2; rewrite Hd; cbn [bind]; now rewrite Eb, Hp).
    assert (Hsell : sell2 prices dps t i bought
                    = Ok {| bank_balance2 := bank_balance2 bought + p;
                            bitcoin := bitcoin bought - 1 |})
      by (unfold sell2, sell_guard2; rewrite Hd; cbn [bind];
          now rewrite Es, Hp).
    repeat split; try assumption.
    + unfold bought. cbn [bitcoin]. lia.
    + unfold evaluate_performance2_body. rewrite Hbuy. cbn [bind].
      exact Hsell.
Qed.

Lemma negative_threshold_both_branches_witness :
  -1 < 0 /\ 0 < - -1 /\
  index [0] (720 - 720) = Ok 0 /\ index flat_prices 720 = Ok 1 /\
  buy_guard2 0 (-1) = true /\ sell_guard2 0 (-1) = true /\
  buy2 flat_prices [0] (-1) 720 {| bank_balance2 := 0; bitcoin := 0 |}
  = Ok {| bank_balance2 := 0 - 1; bitcoin := 0 + 1 |}.
Proof.
  assert (Hlo : -1 < 0) by lra.
  assert (Hhi : 0 < - -1) by lra.
  assert (Hd : index [0] (720 - 720) = Ok 0) by reflexivity.
  assert (Hp : index flat_prices 720 = Ok 1) by reflexivity.
  split; [exact Hlo|]. split; [exact Hhi|].
  split; [exact Hd|]. split; [exact Hp|].
  destruct (proj2 (negative_threshold_both_branches flat_prices [0] (-1) 0 1
                     720 Hlo Hhi Hd Hp) {| bank_balance2 := 0; bitcoin := 0 |})
    as (Gb & Hbuy & _ & Gs & _).
  split; [exact Gb|]. split; [exact Gs | exact Hbuy].
Defined.

Lemma range_step_one (stop : Z) : range_step 720 stop 1 = Ok (range 720 stop).
Proof.
  unfold range_step, range. cbn [Z.eqb Z.ltb Z.compare].
  rewrite Z.div_1_r. f_equal.
  replace (stop - 720 + 1 - 1)%Z with (stop - 720)%Z by lia.
  apply map_ext. intros k. lia.
Qed.

Lemma for_loop_raises {St : Type} (body : St -> Z -> result St) (e : exn)
    (stop : Z) (n : nat) :
  forall (start : Z) (st : St),
    (start + Z.of_nat n < stop)%Z ->
    (forall i st, (start <= i < start + Z.of_nat n)%Z ->
       exists st', body st i = Ok st') ->
    (forall st, body st (start + Z.of_nat n)%Z = Raise e) ->
    for_loop body st (range start stop) = Raise e.
Proof.
  induction n as [|n IH]; intros start st Hstop Hok Hraise.
  - rewrite range_cons by lia. cbn [for_loop].
    replace start with (start + Z.of_nat 0)%Z at 1 by (simpl; lia).
    now rewrite Hraise.
  - rewrite range_cons by lia. cbn [for_loop].
    destruct (Hok start st) as (st1 & E); [lia|].
    rewrite E. cbn [bind].
    apply IH.
    + lia.
    + intros i st' Hi. apply Hok. lia.
    + intros st'. replace (start + 1 + Z.of_nat n)%Z
        with (start + Z.of_nat (S n))%Z by lia.
      apply Hraise.
Qed.

Lemma lookups_before (prices dps : list R) (i : Z) :
  (720 <= i < 720 + Z.of_nat (length dps))%Z ->
  (i < Z.of_nat (length prices))%Z ->
  index dps (i - 720) = Ok (nth (Z.to_nat (i - 720)) dps 0) /\
  index prices i = Ok (nth (Z.to_nat i) prices 0).
Proof.
  intros Hi Hp. split.
  - rewrite <- (Z2Nat.id (i - 720)) at 1 by lia.
    apply index_nth. lia.
  - rewrite <- (Z2Nat.id i) at 1 by lia.
    apply index_nth. lia.
Qed.

(** A signal shorter than the eligible timesteps stops the simulators:
    with stride 1 and len(dps) < len(prices) - 721, the timesteps
    covered by the signal are evaluated and the next one raises
    IndexError, so [evaluate_performance] and [evaluate_performance2]
    return nothing. *)
Theorem short_signal_raises (prices dps : list R) (t : R) :
  (length dps < length prices - 721)%nat ->
  evaluate_performance prices dps t 1 = Raise IndexError /\
  evaluate_performance2 prices dps t 1 = Raise IndexError.
Proof.
  intros Hshort.
  unfold evaluate_performance, evaluate_performance2.
  rewrite range_step_one. cbn [bind].
  assert (Hout : index dps (720 + Z.of_nat (length dps) - 720)
                 = Raise IndexError).
  { replace (720 + Z.of_nat (length dps) - 720)%Z
      with (Z.of_nat (length dps)) by lia.
    now apply index_out_of_range. }
  split.
  - rewrite (for_loop_raises _ IndexError _ (length dps)).
    + reflexivity.
    + lia.
    + intros i st Hi.
      destruct (lookups_before prices dps i Hi) as [Hd Hp]; [lia|].
      unfold evaluate_performance_body, buy, sell.
      rewrite Hd. cbn [bind].
      destruct (buy_guard _ t (position st)); rewrite ?Hp; cbn [bind];
        rewrite ?Hd; cbn [bind];
        (match goal with
         | |- context [sell_guard ?d ?t ?p] => destruct (sell_guard d t p)
         end);
        rewrite ?Hp; cbn [bind]; eexists; reflexivity.
    + intros st. unfold evaluate_performance_body, buy.
      now rewrite Hout.
  - rewrite (for_loop_raises _ IndexError _ (length dps)).
    + reflexivity.
    + lia.
    + intros i st Hi.
      destruct (lookups_before prices dps i Hi) as [Hd Hp]; [lia|].
      unfold evaluate_performance2_body, buy2, sell2.
      rewrite Hd. cbn [bind].
      destruct (buy_guard2 _ t); rewrite ?Hp; cbn [bind]; rewrite ?Hd;
        cbn [bind]; destruct (sell_guard2 _ t);
        rewrite ?Hp; cbn [bind]; eexists; reflexivity.
    + intros st. unfold evaluate_performance2_body, buy2.
      now rewrite Hout.
Qed.

Lemma short_signal_raises_witness :
  (length ([] : list R) < length flat_prices - 721)%nat /\
  evaluate_performance flat_prices [] 0 1 = Raise IndexError /\
  evaluate_performance2 flat_prices [] 0 1 = Raise IndexError.
Proof.
  assert (H : (length ([] : list R) < length flat_prices - 721)%nat)
    by (apply Nat.ltb_lt; reflexivity).
  split; [exact H|].
  exact (short_signal_raises flat_prices [] 0 H).
Defined.

Lemma skipn_nth_cons {A : Type} (d : A) (l : list A) (j : nat) :
  (j < length l)%nat -> skipn j l = nth j l d :: skipn (S j) l.
Proof.
  revert l. induction j as [|j IH]; intros l Hj.
  - destruct l; [simpl in Hj; lia | reflexivity].
  - destruct l as [|a l]; [simpl in Hj; lia|].
    simpl in Hj. cbn [skipn nth]. rewrite (IH l) by lia. reflexivity.
Qed.

Lemma loop2_inventory (prices dps : list R) (t : R) (n : nat) :
  forall (j : nat) (st : ledger2),
    (j + n = length dps)%nat ->
    (720 + length dps < length prices)%nat ->
    exists st',
      for_loop (evaluate_performance2_body prices dps t) st
        (range (720 + Z.of_nat j) (720 + Z.of_nat (length dps))) = Ok st' /\
      bitcoin st'
      = (bitcoin st
         + Z.of_nat (length (buy_signals (skipn j dps) t))
         - Z.of_nat (length (sell_signals (skipn j dps) t)))%Z.
Proof.
  induction n as [|n IH]; intros j st Hj HL.
  - rewrite range_empty by lia. rewrite skipn_all2 by lia.
    exists st. split; [reflexivity | simpl; lia].
  - rewrite range_cons by lia. cbn [for_loop].
    assert (Hd : index dps (720 + Z.of_nat j - 720) = Ok (nth j dps 0)).
    { replace (720 + Z.of_nat j - 720)%Z with (Z.of_nat j) by lia.
      apply index_nth. lia. }
    assert (Hp : index prices (720 + Z.of_nat j)
                 = Ok (nth (720 + j) prices 0)).
    { replace (720 + Z.of_nat j)%Z with (Z.of_nat (720 + j)) by lia.
      apply index_nth. lia. }
    rewrite (skipn_nth_cons 0 dps j) by lia.
    unfold buy_signals, sell_signals. cbn [filter].
    fold (buy_signals (skipn (S j) dps) t).
    fold (sell_signals (skipn (S j) dps) t).
    replace (720 + Z.of_nat j + 1)%Z with (720 + Z.of_nat (S j))%Z by lia.
    unfold evaluate_performance2_body at 1. unfold buy2, sell2.
    rewrite Hd. cbn [bind]. unfold buy_guard2, sell_guard2.
    destruct (Rltb t (nth j dps 0)); rewrite ?Hp; cbn [bind];
      rewrite ?Hd; cbn [bind];
      destruct (Rltb (nth j dps 0) (- t)); rewrite ?Hp; cbn [bind];
      (match goal with
       | |- context [for_loop ?b ?s ?l] =>
           destruct (IH (S j) s) as (st' & E & Hk); [lia | assumption |];
           exists st'; split; [exact E|]; rewrite Hk;
           cbn [bitcoin length]; lia
       end).
Qed.

(** With stride 1 and a signal that has one entry per eligible
    timestep, the inventory that [evaluate_performance2] returns is the
    number of entries above the threshold minus the number of entries
    below its opposite, whatever the prices and whatever the sign of
    the threshold. *)
Theorem inventory_counts_signals (prices dps : list R) (t : R) :
  length dps = (length prices - 721)%nat ->
  exists b,
    evaluate_performance2 prices dps t 1
    = Ok (b, (Z.of_nat (length (buy_signals dps t))
              - Z.of_nat (length (sell_signals dps t)))%Z).
Proof.
  intros Ha. unfold evaluate_performance2.
  rewrite range_step_one. cbn [bind].
  destruct dps as [|d dps].
  - rewrite range_empty by (cbn [length] in Ha; lia). cbn.
    eexists. reflexivity.
  - set (m := length (d :: dps)) in *.
    assert (Hm : (0 < m)%nat) by (unfold m; cbn [length]; lia).
    replace (Z.of_nat (length prices) - 1)%Z
      with (720 + Z.of_nat m)%Z by lia.
    destruct (loop2_inventory prices (d :: dps) t m 0
                {| bank_balance2 := 0; bitcoin := 0 |})
      as (st & E & Hk); [reflexivity | fold m; lia |].
    fold m in E.
    change (720 + Z.of_nat 0)%Z with 720%Z in E.
    rewrite E. cbn [bind]. rewrite Hk. cbn [bitcoin skipn].
    eexists. reflexivity.
Qed.

Lemma inventory_counts_signals_witness :
  length [1] = (length flat_prices - 721)%nat /\
  exists b,
    evaluate_performance2 flat_prices [1] 0 1
    = Ok (b, (Z.of_nat (length (buy_signals [1%R] 0%R))
              - Z.of_nat (length (sell_signals [1%R] 0%R)))%Z).
Proof.
  assert (Ha : length [1] = (length flat_prices - 721)%nat) by reflexivity.
  split; [exact Ha|].
  exact (inventory_counts_signals flat_prices [1] 0 Ha).
Defined.

Lemma Rltb_false (a b : R) : Rltb a b = false <-> b <= a.
Proof.
  unfold Rltb. destruct (Rlt_dec a b); split; intros; (easy || lra).
Qed.

Lemma for_loop_fixed {St : Type} (body : St -> Z -> result St)
    (idx : list Z) (st : St) :
  (forall i, In i idx -> body st i = Ok st) -> for_loop body st idx = Ok st.
Proof.
  induction idx as [|i idx IH]; intros H; [reflexivity|].
  cbn [for_loop]. rewrite (H i (or_introl eq_refl)). cbn [bind].
  apply IH. intros j Hj. apply H. now right.
Qed.

(** A signal that never leaves the band [-t, t] trades nothing: when
    it has one entry per eligible timestep and the stride is positive,
    [evaluate_performance] returns the balance 0 and
    [evaluate_performance2] the balance 0 and the inventory 0, and no
    price is read. *)
Theorem quiet_signal_trades_nothing (prices dps : list R) (t : R) (step : Z) :
  (0 < step)%Z ->
  length dps = (length prices - 721)%nat ->
  Forall (fun d => - t <= d <= t) dps ->
  evaluate_performance prices dps t step = Ok 0 /\
  evaluate_performance2 prices dps t step = Ok (0, 0%Z).
Proof.
  intros Hs Ha Hq.
  unfold evaluate_performance, evaluate_performance2.
  destruct (range_step 720 (Z.of_nat (length prices) - 1) step)
    as [idx|e] eqn:E.
  2:{ unfold range_step in E.
      assert (E0 : (step =? 0)%Z = false) by (apply Z.eqb_neq; lia).
      rewrite E0 in E. discriminate. }
  cbn [bind].
  assert (Hd : forall i, In i idx ->
            exists d, index dps (i - 720) = Ok d
                      /\ Rltb t d = false /\ Rltb d (- t) = false).
  { intros i Hi.
    pose proof (in_range_step _ _ _ _ _ Hs E Hi) as Hr.
    destruct (aligned_lookups prices dps i Ha Hr) as [Hd _].
    eexists. split; [exact Hd|].
    rewrite Forall_forall in Hq.
    destruct (Hq _ (index_In _ _ _ Hd)) as [Hlo Hhi].
    split; apply Rltb_false; assumption. }
  split.
  - rewrite for_loop_fixed; [reflexivity|].
    intros i Hi. destruct (Hd i Hi) as (d & Ed & Eb & Es).
    unfold evaluate_performance_body, buy, sell, buy_guard, sell_guard.
    rewrite Ed. cbn [bind]. rewrite Eb. cbn [andb bind].
    rewrite Es. reflexivity.
  - rewrite for_loop_fixed; [reflexivity|].
    intros i Hi. destruct (Hd i Hi) as (d & Ed & Eb & Es).
    unfold evaluate_performance2_body, buy2, sell2, buy_guard2, sell_guard2.
    rewrite Ed. cbn [bind]. rewrite Eb. cbn [bind].
    rewrite Es. reflexivity.
Qed.

Lemma quiet_signal_trades_nothing_witness :
  (0 < 1)%Z /\
  length [0] = (length flat_prices - 721)%nat /\
  Forall (fun d => - 1 <= d <= 1) [0] /\
  evaluate_performance flat_prices [0] 1 1 = Ok 0 /\
  evaluate_performance2 flat_prices [0] 1 1 = Ok (0, 0%Z).
Proof.
  assert (Hs : (0 < 1)%Z) by reflexivity.
  assert (Ha : length [0] = (length flat_prices - 721)%nat) by reflexivity.
  assert (Hq : Forall (fun d => - 1 <= d <= 1) [0]).
  { constructor; [|constructor]. split; lra. }
  split; [exact Hs|]. split; [exact Ha|]. split; [exact Hq|].
  exact (quiet_signal_trades_nothing flat_prices [0] 1 1 Hs Ha Hq).
Defined.

(** ** The pipeline of the script *)

(** The signal of [predict_dps] fits the simulators, as the script
    chains them on the third period: for at least 721 prices, libraries
    that [predict_dpi] accepts and a positive stride, [predict_dps]
    returns a signal on which [evaluate_performance] returns a balance
    and [evaluate_performance2] a balance and an inventory. *)
Theorem predict_then_evaluate (prices : list R) (s1 s2 s3 : list (list R))
    (w : R * R * R * R) (t : R) (step : Z) :
  (721 <= length prices)%nat ->
  usable_library 180 s1 -> usable_library 360 s2 -> usable_library 720 s3 ->
  (0 < step)%Z ->
  exists dps,
    predict_dps prices s1 s2 s3 w = Ok dps /\
    (exists b, evaluate_performance prices dps t step = Ok b) /\
    (exists b k, evaluate_performance2 prices dps t step = Ok (b, k)).
Proof.
  intros HL H1 H2 H3 Hs.
  eexists. split; [now apply predict_dps_ok|].
  apply evaluate_performance_aligned_ok; [assumption|].
  unfold aligned. rewrite length_map, length_range. lia.
Qed.

Lemma predict_then_evaluate_witness :
  (721 <= length flat_prices)%nat /\
  usable_library 180 flat_s1 /\ usable_library 360 flat_s2 /\
  usable_library 720 flat_s3 /\ (0 < 1)%Z /\
  exists dps,
    predict_dps flat_prices flat_s1 flat_s2 flat_s3 (0, 1, 1, 1) = Ok dps /\
    (exists b, evaluate_performance flat_prices dps 0 1 = Ok b) /\
    (exists b k, evaluate_performance2 flat_prices dps 0 1 = Ok (b, k)).
Proof.
  destruct flat_libraries as (H1 & H2 & H3).
  assert (HL : (721 <= length flat_prices)%nat)
    by (apply Nat.leb_le; reflexivity).
  assert (Hs : (0 < 1)%Z) by reflexivity.
  split; [exact HL|].
  split; [exact H1|]. split; [exact H2|]. split; [exact H3|].
  split; [exact Hs|].
  exact (predict_then_evaluate flat_prices flat_s1 flat_s2 flat_s3
           (0, 1, 1, 1) 0 1 HL H1 H2 H3 Hs).
Defined.
